(** * IPL dashboard: the reporting pipeline of [app.py]

    [app.py] is a straight-line script: it loads two tables, filters the
    match table by the two sidebar selections, and derives a fixed set of
    small tables with pandas.  This development embeds the script as pure
    functions over lists of rows.

    - [Pandas] holds the library operations the script calls (boolean row
      selection, [value_counts], [nunique], [groupby], [sort_values],
      [head], [nlargest]), written after their documented behaviour.
    - [App] holds the script itself, one definition per variable of
      [app.py], and [render], the script as a whole.

    A column cell that may be missing (NaN in pandas) is an [option];
    the integer columns [batsman_runs] and [is_wicket] are [Z].  A cell
    holds the loaded value: text, or in a column of whole numbers the
    number, written as its decimal numeral. *)

From Stdlib Require Import Ascii String List ZArith Bool Lia Arith.
From Stdlib Require Import Permutation Sorted.
Import ListNotations.

Local Open Scope string_scope.
Local Open Scope list_scope.

(* ===================================================================== *)
(** * The pandas operations used by the script                            *)
(* ===================================================================== *)

Module Pandas.

(** A cell of a text column; [None] is a missing value. *)
Definition cell := option string.

Definition notna {X : Type} (c : option X) : bool :=
  match c with Some _ => true | None => false end.

Definition isna {X : Type} (c : option X) : bool := negb (notna c).

(** [column == v], row by row: a missing cell is equal to nothing. *)
Definition eq_value (c : cell) (v : string) : bool :=
  match c with
  | Some s => String.eqb s v
  | None => false
  end.

(** [column != v], row by row: a missing cell differs from everything. *)
Definition ne_value (c : cell) (v : string) : bool := negb (eq_value c v).

(** [column_a == column_b], row by row: false as soon as one side is
    missing, also when both are. *)
Definition eq_cells (a b : cell) : bool :=
  match a, b with
  | Some x, Some y => String.eqb x y
  | _, _ => false
  end.

(** Equality of keys when rows are grouped: here two missing keys are the
    same key. *)
Definition key_eqb {X : Type} (eqb : X -> X -> bool) (a b : option X) : bool :=
  match a, b with
  | Some x, Some y => eqb x y
  | None, None => true
  | _, _ => false
  end.

(** [head(n)]. *)
Definition head {A : Type} (n : nat) (l : list A) : list A := firstn n l.

(** ** Keys and counting *)

Section Keys.
Context {X : Type} (eqb : X -> X -> bool).

(** The distinct values of a list, each at its first occurrence. *)
Fixpoint unique (l : list X) : list X :=
  match l with
  | [] => []
  | x :: t => x :: filter (fun y => negb (eqb x y)) (unique t)
  end.

Definition count (k : X) (l : list X) : nat :=
  length (filter (eqb k) l).
End Keys.

(** The present values of a column. *)
Fixpoint dropna {X : Type} (s : list (option X)) : list X :=
  match s with
  | [] => []
  | Some x :: t => x :: dropna t
  | None :: t => dropna t
  end.

(** ** Sorting *)

(** Insertion sort: [x] goes in front of the first [y] with [before x y].
    An element is never moved past one it may stay in front of, so
    elements that compare equal keep their order. *)
Section Insertion.
Context {A : Type} (before : A -> A -> bool).

Fixpoint insert (x : A) (l : list A) : list A :=
  match l with
  | [] => [x]
  | y :: t => if before x y then x :: y :: t else y :: insert x t
  end.

Fixpoint isort (l : list A) : list A :=
  match l with
  | [] => []
  | x :: t => insert x (isort t)
  end.
End Insertion.

(** [sort_values(col, ascending=False)] with the default [kind]
    (quicksort): the rows come back in descending order of the column and
    nothing else is promised, in particular not the order of rows with
    equal values.  The script is modelled over any such sort. *)
Class DescSorter : Type := {
  sort_values_desc : forall {A : Type}, (A -> Z) -> list A -> list A;
  sort_values_desc_perm :
    forall (A : Type) (k : A -> Z) (l : list A),
      Permutation (sort_values_desc k l) l;
  sort_values_desc_sorted :
    forall (A : Type) (k : A -> Z) (l : list A),
      StronglySorted (fun x y => (k y <= k x)%Z) (sort_values_desc k l)
}.

(** The stable descending sort, one sort of that kind. *)
Definition stable_sort_desc {A : Type} (k : A -> Z) (l : list A) : list A :=
  isort (fun x y => (k y <=? k x)%Z) l.

(** ** Column types *)

(** The dtype [read_csv] gives a column: numbers, or [object]. *)
Inductive dtype : Type := Numeric | Object.

Definition is_digit (c : ascii) : bool :=
  (48 <=? nat_of_ascii c)%nat && (nat_of_ascii c <=? 57)%nat.

Fixpoint all_digits (s : string) : bool :=
  match s with
  | EmptyString => true
  | String c t => is_digit c && all_digits t
  end.

(** The value of a string of digits, most significant digit first. *)
Fixpoint digits_val (acc : Z) (s : string) : Z :=
  match s with
  | EmptyString => acc
  | String c t => digits_val (10 * acc + (Z.of_nat (nat_of_ascii c) - 48)) t
  end.

(** The numeral of a natural number: ["0"], or digits that do not start
    with a zero. *)
Definition is_nat_numeral (s : string) : bool :=
  match s with
  | EmptyString => false
  | String c t =>
      is_digit c && all_digits t
      && (negb (Ascii.eqb c "0") || String.eqb t "")
  end.

(** The numeral of a whole number: that of a natural number, or ["-"]
    and that of a positive one.  A column whose present cells are all of
    this kind is read as a column of numbers, otherwise as text; numbers
    with a fraction are outside the model. *)
Definition is_int (s : string) : bool :=
  match s with
  | String c t =>
      if Ascii.eqb c "-"
      then is_nat_numeral t && negb (String.eqb t "0")
      else is_nat_numeral s
  | EmptyString => false
  end.

Definition int_val (s : string) : Z :=
  match s with
  | String c t =>
      if Ascii.eqb c "-" then (- digits_val 0 t)%Z else digits_val 0 s
  | EmptyString => 0%Z
  end.

Definition int_leb (a b : string) : bool := (int_val a <=? int_val b)%Z.

(** The dtype of a column of the cells [s]: a file without rows leaves
    every column [object]; with rows, a column is numeric when no present
    cell is text (a column of missing values only is numeric). *)
Definition column_dtype (s : list cell) : dtype :=
  match s with
  | [] => Object
  | _ :: _ => if forallb is_int (dropna s) then Numeric else Object
  end.

(** The dtype of a column of whole numbers and missing values. *)
Definition numeric_dtype (s : list (option Z)) : dtype :=
  match s with
  | [] => Object
  | _ :: _ => Numeric
  end.

(** Sorting of group keys, ascending in the order of the column's dtype:
    numbers by value, text character by character.  The dtype is read off
    the keys; these are the distinct present values of the column, so for
    the keys of a whole column it is the column's dtype. *)
Definition sort_keys (l : list string) : list string :=
  if forallb is_int l then isort int_leb l else isort String.leb l.

(** ** [value_counts], [nunique] *)

(** [Series.value_counts(dropna=...)]: every distinct value with the
    number of rows holding it, most frequent first.  With [dropna] (the
    default, and what the script uses everywhere) rows with a missing
    value are left out before counting. *)
Definition value_counts_gen `{DescSorter} {X : Type} (eqb : X -> X -> bool)
    (drop : bool) (s : list (option X)) : list (option X * nat) :=
  let vals := if drop then filter notna s else s in
  sort_values_desc (fun kc => Z.of_nat (snd kc))
    (map (fun k => (k, count (key_eqb eqb) k vals))
         (unique (key_eqb eqb) vals)).

(** [Series.value_counts()]. *)
Definition value_counts `{DescSorter} {X : Type} (eqb : X -> X -> bool)
    (s : list (option X)) : list (option X * nat) :=
  value_counts_gen eqb true s.

(** [Series.nunique()]: the number of distinct present values. *)
Definition nunique (s : list cell) : nat :=
  length (unique String.eqb (dropna s)).

(** The sum of the counts of a table of (value, count) pairs. *)
Definition total {K : Type} (t : list (K * nat)) : nat :=
  list_sum (map snd t).

(** ** [groupby] *)

(** The group keys of [groupby(col)]: the distinct present values of the
    column, sorted. *)
Definition group_keys (s : list cell) : list string :=
  sort_keys (unique String.eqb (dropna s)).

Definition sum_Z (l : list Z) : Z := fold_right Z.add 0%Z l.

Section GroupBy.
Context {A : Type} (key : A -> cell).

(** The rows of one group. *)
Definition group (k : string) (l : list A) : list A :=
  filter (fun r => eq_value (key r) k) l.

(** [groupby(key).size().reset_index()]. *)
Definition groupby_size (l : list A) : list (string * nat) :=
  map (fun k => (k, length (group k l))) (group_keys (map key l)).

(** [groupby(key)[val].sum().reset_index()].  The sum is the exact sum
    of the integers; pandas adds in 64 bits, which is the same as long as
    the total of each group fits. *)
Definition groupby_sum (val : A -> Z) (l : list A) : list (string * Z) :=
  map (fun k => (k, sum_Z (map val (group k l)))) (group_keys (map key l)).
End GroupBy.

(** ** [nlargest] *)

(** The order of [nlargest] on a numeric column: [a] may stay in front of
    [b]; a missing value comes after every present one. *)
Definition rank_geb (a b : option Z) : bool :=
  match a, b with
  | Some x, Some y => (y <=? x)%Z
  | Some _, None => true
  | None, Some _ => false
  | None, None => true
  end.

(** What [nlargest] selects on a numeric column, with the default
    [keep='first']: the first [n] rows in descending order of [col], rows
    with equal values in their input order, rows with a missing value
    last. *)
Definition largest_rows {A : Type} (n : nat) (col : A -> option Z)
    (l : list A) : list A :=
  firstn n (isort (fun x y => rank_geb (col x) (col y)) l).

(** [DataFrame.nlargest(n, col)].  On a column of dtype [object] it raises
    [TypeError], whatever the rows: the result is [None]. *)
Definition nlargest {A : Type} (dt : dtype) (n : nat) (col : A -> option Z)
    (l : list A) : option (list A) :=
  match dt with
  | Numeric => Some (largest_rows n col l)
  | Object => None
  end.

End Pandas.

(* ===================================================================== *)
(** * The script                                                          *)
(* ===================================================================== *)

Module App.
Import Pandas.

(** A row of [matches.csv], with the columns the script reads. *)
Record Match : Type := mkMatch {
  season : cell;
  date : cell;
  city : cell;
  venue : cell;
  team1 : cell;
  team2 : cell;
  toss_winner : cell;
  toss_decision : cell;
  winner : cell;
  result : cell;
  result_margin : option Z;
  player_of_match : cell
}.

(** A row of [deliveries.csv], with the columns the script reads. *)
Record Delivery : Type := mkDelivery {
  batter : cell;
  bowler : cell;
  batsman_runs : Z;
  is_wicket : Z;
  dismissal_kind : cell
}.

(** ** Sidebar filter (lines 44-48) *)

Definition filter_stage (selected_season selected_team : string)
    (matches : list Match) : list Match :=
  let df := matches in
  let df :=
    if negb (selected_season =? "All")%string
    then filter (fun r => eq_value (season r) selected_season) df
    else df in
  let df :=
    if negb (selected_team =? "All")%string
    then filter (fun r => eq_value (team1 r) selected_team
                          || eq_value (team2 r) selected_team) df
    else df in
  df.

(** ** KPI cards (lines 61-64) *)

Record Kpi : Type := mkKpi {
  total_matches : nat;
  venues : nat;
  cities : nat;
  seasons : nat
}.

Definition kpi (df : list Match) : Kpi :=
  {| total_matches := length df;
     venues := nunique (map venue df);
     cities := nunique (map city df);
     seasons := nunique (map season df) |}.

Section Tables.
Context `{DescSorter}.

(** ** Wins per team, toss decision (lines 75, 85) *)

Definition wins (df : list Match) : list (cell * nat) :=
  value_counts String.eqb (map winner df).

Definition toss (df : list Match) : list (cell * nat) :=
  value_counts String.eqb (map toss_decision df).

(** ** Matches per season (line 100): from [matches], not from [df] *)

Definition season_matches (matches : list Match) : list (string * nat) :=
  groupby_size season matches.

(** ** Toss winner against match winner (lines 109-113) *)

Definition toss_match_win (r : Match) : bool :=
  eq_cells (toss_winner r) (winner r).

(** [.map({True: "Yes", False: "No"})]; a key outside the dictionary
    becomes a missing value. *)
Definition yes_no (k : option bool) : cell :=
  match k with
  | Some true => Some "Yes"
  | Some false => Some "No"
  | None => None
  end.

Definition toss_effect (df : list Match) : list (cell * nat) :=
  let df_toss := map (fun r => (r, toss_match_win r)) df in
  let counts := value_counts Bool.eqb (map (fun p => Some (snd p)) df_toss) in
  map (fun kc => (yes_no (fst kc), snd kc)) counts.

(** ** Top venues, player of the match (lines 127, 137) *)

Definition venue_counts (df : list Match) : list (cell * nat) :=
  head 10 (value_counts String.eqb (map venue df)).

Definition potm (df : list Match) : list (cell * nat) :=
  head 10 (value_counts String.eqb (map player_of_match df)).

(** ** Top run scorers (lines 155-157) *)

Definition top_batsmen (deliveries : list Delivery) : list (string * Z) :=
  let top_batsmen := groupby_sum batter batsman_runs deliveries in
  head 10 (sort_values_desc snd top_batsmen).

(** ** Top wicket takers (lines 166-171) *)

Definition top_bowlers (deliveries : list Delivery) : list (string * Z) :=
  let wickets := filter (fun r => (is_wicket r =? 1)%Z) deliveries in
  let wickets :=
    filter (fun r => ne_value (dismissal_kind r) "run out") wickets in
  let top_bowlers := groupby_sum bowler is_wicket wickets in
  head 10 (sort_values_desc snd top_bowlers).
End Tables.

(** ** Biggest wins (lines 188, 198) *)

(** [[["winner","result_margin","season"]]]. *)
Definition project (r : Match) : cell * option Z * cell :=
  (winner r, result_margin r, season r).

(** The dtype of the [result_margin] column of the loaded table.  The
    filtered table [df] keeps the dtypes of [matches]. *)
Definition margin_dtype (matches : list Match) : dtype :=
  numeric_dtype (map result_margin matches).

(** The rows [df[df["result"] == ty].nlargest(n, "result_margin")], before
    the projection; [dt] is the dtype of the margin column. *)
Definition top_rows (dt : dtype) (n : nat) (ty : string) (df : list Match)
    : option (list Match) :=
  nlargest dt n result_margin (filter (fun r => eq_value (result r) ty) df).

Definition top_margin (dt : dtype) (n : nat) (ty : string) (df : list Match)
    : option (list (cell * option Z * cell)) :=
  option_map (map project) (top_rows dt n ty df).

Definition by_runs (dt : dtype) (df : list Match) :=
  top_margin dt 10 "runs" df.
Definition by_wkts (dt : dtype) (df : list Match) :=
  top_margin dt 10 "wickets" df.

(** ** The script as a whole *)

(** Everything one run of the script hands to the charts.  A table that
    could not be computed, the script having stopped there with an
    error, is [None]. *)
Record Dashboard : Type := mkDashboard {
  d_kpi : Kpi;
  d_wins : list (cell * nat);
  d_toss : list (cell * nat);
  d_season_matches : list (string * nat);
  d_toss_effect : list (cell * nat);
  d_venue_counts : list (cell * nat);
  d_potm : list (cell * nat);
  d_top_batsmen : list (string * Z);
  d_top_bowlers : list (string * Z);
  d_by_runs : option (list (cell * option Z * cell));
  d_by_wkts : option (list (cell * option Z * cell))
}.

Definition render `{DescSorter} (matches : list Match)
    (deliveries : list Delivery) (selected_season selected_team : string)
    : Dashboard :=
  let df := filter_stage selected_season selected_team matches in
  {| d_kpi := kpi df;
     d_wins := wins df;
     d_toss := toss df;
     d_season_matches := season_matches matches;
     d_toss_effect := toss_effect df;
     d_venue_counts := venue_counts df;
     d_potm := potm df;
     d_top_batsmen := top_batsmen deliveries;
     d_top_bowlers := top_bowlers deliveries;
     d_by_runs := by_runs (margin_dtype matches) df;
     d_by_wkts := by_wkts (margin_dtype matches) df |}.

End App.

(* ===================================================================== *)
(** * Facts about the pandas operations                                   *)
(* ===================================================================== *)

Module PandasFacts.
Import Pandas.

(** ** Insertion sort *)

Section InsertionFacts.
Context {A : Type} (before : A -> A -> bool).

Lemma insert_perm (x : A) (l : list A) :
  Permutation (insert before x l) (x :: l).
Proof.
  induction l as [|y t IH]; simpl.
  - reflexivity.
  - destruct (before x y).
    + reflexivity.
    + rewrite IH. apply perm_swap.
Qed.

Lemma isort_perm (l : list A) : Permutation (isort before l) l.
Proof.
  induction l as [|x t IH]; simpl.
  - constructor.
  - rewrite insert_perm. now constructor.
Qed.

Lemma isort_length (l : list A) : length (isort before l) = length l.
Proof. apply Permutation_length, isort_perm. Qed.



Hypothesis before_total : forall x y, before x y = true \/ before y x = true.

Lemma insert_HdRel (x a : A) (l : list A) :
  before a x = true ->
  HdRel (fun u v => before u v = true) a l ->
  HdRel (fun u v => before u v = true) a (insert before x l).
Proof.
  intros Hax Hhd. destruct l as [|y t]; simpl.
  - now constructor.
  - inversion Hhd; subst. destruct (before x y); now constructor.
Qed.

Lemma insert_Sorted (x : A) (l : list A) :
  Sorted (fun u v => before u v = true) l ->
  Sorted (fun u v => before u v = true) (insert before x l).
Proof.
  induction 1 as [|y t Hs IH Hhd]; simpl.
  - repeat constructor.
  - destruct (before x y) eqn:Hxy.
    + constructor; [now constructor | now constructor].
    + constructor; [exact IH|].
      apply insert_HdRel; [|exact Hhd].
      destruct (before_total x y) as [E|E]; [congruence | exact E].
Qed.

Lemma isort_Sorted (l : list A) :
  Sorted (fun u v => before u v = true) (isort before l).
Proof.
  induction l as [|x t IH]; simpl.
  - constructor.
  - now apply insert_Sorted.
Qed.

Hypothesis before_trans :
  forall x y z, before x y = true -> before y z = true -> before x z = true.

Lemma isort_StronglySorted (l : list A) :
  StronglySorted (fun u v => before u v = true) (isort before l).
Proof.
  apply Sorted_StronglySorted.
  - intros x y z. apply before_trans.
  - apply isort_Sorted.
Qed.
End InsertionFacts.

Lemma Sorted_impl_rel {A : Type} (R S : A -> A -> Prop) (l : list A) :
  (forall x y, R x y -> S x y) -> Sorted R l -> Sorted S l.
Proof.
  intros HRS. induction 1 as [|x t Hs IH Hhd]; constructor.
  - exact IH.
  - destruct Hhd; constructor. now apply HRS.
Qed.

Lemma StronglySorted_impl {A : Type} (R S : A -> A -> Prop) (l : list A) :
  (forall x y, R x y -> S x y) -> StronglySorted R l -> StronglySorted S l.
Proof.
  intros HRS. induction 1 as [|x t Hs IH Hall]; constructor.
  - exact IH.
  - eapply Forall_impl; [|exact Hall]. intros y. apply HRS.
Qed.

Lemma stable_sort_desc_perm {A : Type} (k : A -> Z) (l : list A) :
  Permutation (stable_sort_desc k l) l.
Proof. apply isort_perm. Qed.

Lemma stable_sort_desc_sorted {A : Type} (k : A -> Z) (l : list A) :
  StronglySorted (fun x y => (k y <= k x)%Z) (stable_sort_desc k l).
Proof.
  apply StronglySorted_impl with (R := fun x y => (k y <=? k x)%Z = true).
  - intros x y. apply Z.leb_le.
  - apply isort_StronglySorted.
    + intros x y. rewrite !Z.leb_le. lia.
    + intros x y z. rewrite !Z.leb_le. lia.
Qed.

(** The stable sort is a descending sort; every statement over
    [DescSorter] holds of it in particular. *)
Definition stable_sorter : DescSorter := {|
  sort_values_desc := @stable_sort_desc;
  sort_values_desc_perm := @stable_sort_desc_perm;
  sort_values_desc_sorted := @stable_sort_desc_sorted
|}.

(** ** Distinct values and counts *)

Section KeyFacts.
Context {X : Type} (eqb : X -> X -> bool).
Hypothesis eqb_spec : forall x y, reflect (x = y) (eqb x y).

Lemma eqb_refl' (x : X) : eqb x x = true.
Proof. now destruct (eqb_spec x x). Qed.

Lemma unique_In (x : X) (l : list X) : In x (unique eqb l) <-> In x l.
Proof.
  induction l as [|y t IH]; simpl.
  - tauto.
  - rewrite filter_In, IH. split.
    + tauto.
    + intros [E|Hin]; [now left|].
      destruct (eqb_spec y x) as [E|N]; [now left|].
      right. simpl. tauto.
Qed.

Lemma unique_NoDup (l : list X) : NoDup (unique eqb l).
Proof.
  induction l as [|y t IH]; simpl.
  - constructor.
  - constructor.
    + rewrite filter_In. intros [_ Hn].
      rewrite eqb_refl' in Hn. discriminate.
    + now apply NoDup_filter.
Qed.

Lemma count_cons (k x : X) (l : list X) :
  count eqb k (x :: l) = (if eqb k x then 1 else 0) + count eqb k l.
Proof. unfold count. simpl. now destruct (eqb k x). Qed.

Lemma count_pos (k : X) (l : list X) : In k l -> 1 <= count eqb k l.
Proof.
  induction l as [|x t IH]; simpl; [tauto|].
  intros [E|Hin]; rewrite count_cons.
  - subst. rewrite eqb_refl'. lia.
  - specialize (IH Hin). lia.
Qed.

Lemma hits_absent (x : X) (ks : list X) :
  ~ In x ks -> list_sum (map (fun k => if eqb k x then 1 else 0) ks) = 0.
Proof.
  induction ks as [|k t IH]; simpl; [reflexivity|].
  intros Hn. destruct (eqb_spec k x) as [E|N].
  - exfalso. apply Hn. now left.
  - rewrite IH; [reflexivity|]. intros Hin. apply Hn. now right.
Qed.

Lemma hits_once (x : X) (ks : list X) :
  NoDup ks -> In x ks ->
  list_sum (map (fun k => if eqb k x then 1 else 0) ks) = 1.
Proof.
  induction 1 as [|k t Hk Hnd IH]; simpl; [tauto|].
  intros [E|Hin].
  - subst. rewrite eqb_refl', hits_absent by assumption. reflexivity.
  - destruct (eqb_spec k x) as [E|N]; [subst; contradiction|].
    now rewrite IH.
Qed.

(** Counting every row once: over distinct keys that cover the list, the
    counts add up to its length. *)
Lemma counts_cover (ks l : list X) :
  NoDup ks -> (forall x, In x l -> In x ks) ->
  list_sum (map (fun k => count eqb k l) ks) = length l.
Proof.
  intros Hnd. induction l as [|x t IH]; intros Hcov.
  - unfold count. simpl. induction ks as [|k ks' IHk]; simpl; [reflexivity|].
    inversion Hnd; subst. now rewrite IHk.
  - assert (Hsplit : forall ks',
      list_sum (map (fun k => count eqb k (x :: t)) ks') =
      list_sum (map (fun k => if eqb k x then 1 else 0) ks') +
      list_sum (map (fun k => count eqb k t) ks')).
    { induction ks' as [|k ks' IHk]; simpl; [reflexivity|].
      rewrite IHk, count_cons. lia. }
    rewrite Hsplit, hits_once, IH; simpl; auto.
    + intros y Hy. apply Hcov. now right.
    + apply Hcov. now left.
Qed.

Lemma counts_unique (l : list X) :
  list_sum (map (fun k => count eqb k l) (unique eqb l)) = length l.
Proof.
  apply counts_cover.
  - apply unique_NoDup.
  - intros x. apply unique_In.
Qed.
End KeyFacts.

Lemma key_eqb_spec {X : Type} (eqb : X -> X -> bool) :
  (forall x y, reflect (x = y) (eqb x y)) ->
  forall a b, reflect (a = b) (key_eqb eqb a b).
Proof.
  intros Hspec [x|] [y|]; simpl; try (constructor; congruence).
  destruct (Hspec x y); constructor; congruence.
Qed.

Lemma filter_notna {X : Type} (s : list (option X)) :
  filter notna s = map Some (dropna s).
Proof.
  induction s as [|[x|] t IH]; simpl; congruence.
Qed.

Lemma dropna_In {X : Type} (x : X) (s : list (option X)) :
  In x (dropna s) <-> In (Some x) s.
Proof.
  induction s as [|[y|] t IH]; simpl.
  - tauto.
  - rewrite IH. split; intros [E|Hin]; auto; left; congruence.
  - rewrite IH. split; [tauto|]. intros [E|Hin]; [discriminate|exact Hin].
Qed.

Lemma dropna_map {A X : Type} (col : A -> option X) (l : list A) :
  length (dropna (map col l)) = length (filter (fun r => notna (col r)) l).
Proof.
  induction l as [|r t IH]; simpl; [reflexivity|].
  destruct (col r); simpl; congruence.
Qed.

Lemma perm_In {A : Type} (l l' : list A) (x : A) :
  Permutation l l' -> (In x l <-> In x l').
Proof.
  intros Hp. split; apply Permutation_in; [exact Hp | now symmetry].
Qed.

Lemma total_perm {K : Type} (t t' : list (K * nat)) :
  Permutation t t' -> total t = total t'.
Proof.
  unfold total. induction 1; simpl; lia.
Qed.

(** ** [value_counts] *)

Section ValueCountsFacts.
Context `{DescSorter} {X : Type} (eqb : X -> X -> bool).
Hypothesis eqb_spec : forall x y, reflect (x = y) (eqb x y).

Let keqb := key_eqb eqb.

Lemma value_counts_gen_perm (drop : bool) (s : list (option X)) :
  Permutation (value_counts_gen eqb drop s)
    (map (fun k => (k, count keqb k (if drop then filter notna s else s)))
         (unique keqb (if drop then filter notna s else s))).
Proof. apply sort_values_desc_perm. Qed.

Lemma value_counts_gen_total (drop : bool) (s : list (option X)) :
  total (value_counts_gen eqb drop s)
  = length (if drop then filter notna s else s).
Proof.
  rewrite (total_perm _ _ (value_counts_gen_perm drop s)).
  unfold total. rewrite map_map. simpl.
  apply counts_unique, key_eqb_spec, eqb_spec.
Qed.

(** With [dropna=False] every row is counted. *)
Lemma value_counts_keepna_total (s : list (option X)) :
  total (value_counts_gen eqb false s) = length s.
Proof. apply value_counts_gen_total. Qed.

Lemma value_counts_total (s : list (option X)) :
  total (value_counts eqb s) = length (dropna s).
Proof.
  unfold value_counts. rewrite value_counts_gen_total, filter_notna.
  apply length_map.
Qed.

Lemma count_filter_notna (x : X) (s : list (option X)) :
  count keqb (Some x) (filter notna s) = count keqb (Some x) s.
Proof.
  unfold count. f_equal.
  induction s as [|[y|] t IH]; simpl; [reflexivity| |exact IH].
  destruct (eqb x y); congruence.
Qed.

Lemma value_counts_In (k : option X) (c : nat) (s : list (option X)) :
  In (k, c) (value_counts eqb s) <->
  exists x, k = Some x /\ In (Some x) s /\ c = count keqb (Some x) s.
Proof.
  unfold value_counts.
  rewrite (perm_In _ _ _ (value_counts_gen_perm true s)).
  rewrite in_map_iff. split.
  - intros (k' & E & Hin). inversion E; subst k' c; clear E.
    apply (proj1 (unique_In _ (key_eqb_spec _ eqb_spec) _ _)) in Hin.
    apply filter_In in Hin. destruct Hin as [Hin Hna].
    destruct k as [x|]; [|discriminate].
    exists x. now rewrite count_filter_notna.
  - intros (x & -> & Hin & ->). exists (Some x).
    rewrite count_filter_notna. split; [reflexivity|].
    apply (proj2 (unique_In _ (key_eqb_spec _ eqb_spec) _ _)).
    apply filter_In. now split.
Qed.

Lemma value_counts_keys_NoDup (s : list (option X)) :
  NoDup (map fst (value_counts eqb s)).
Proof.
  unfold value_counts.
  eapply Permutation_NoDup.
  - apply Permutation_map, Permutation_sym, value_counts_gen_perm.
  - rewrite map_map. simpl. rewrite map_id.
    apply unique_NoDup, key_eqb_spec, eqb_spec.
Qed.

Lemma value_counts_sorted (s : list (option X)) :
  StronglySorted (fun a b => snd b <= snd a) (value_counts eqb s).
Proof.
  eapply StronglySorted_impl; [|apply sort_values_desc_sorted].
  simpl. intros a b. lia.
Qed.
End ValueCountsFacts.

(** ** Numerals *)

Example numerals :
  map is_int ["2020"; "0"; "-5"; "999"; "007"; "-0"; ""; "2007/08"; "12a"]
  = [true; true; true; true; false; false; false; false; false]
  /\ map int_val ["2020"; "0"; "-5"; "999"] = [2020; 0; -5; 999]%Z
  /\ sort_keys ["1000"; "999"; "-5"] = ["-5"; "999"; "1000"]
  /\ sort_keys ["2009"; "2007/08"; "1000"] = ["1000"; "2007/08"; "2009"].
Proof. repeat split. Qed.

(** ** [groupby] *)

Lemma sort_keys_perm (l : list string) : Permutation (sort_keys l) l.
Proof.
  unfold sort_keys. destruct (forallb is_int l); apply isort_perm.
Qed.

Lemma group_keys_In (k : string) (s : list cell) :
  In k (group_keys s) <-> In (Some k) s.
Proof.
  unfold group_keys.
  rewrite (perm_In _ _ _ (sort_keys_perm _)).
  rewrite (unique_In _ String.eqb_spec). apply dropna_In.
Qed.

Lemma group_keys_NoDup (s : list cell) : NoDup (group_keys s).
Proof.
  unfold group_keys.
  eapply Permutation_NoDup.
  - apply Permutation_sym, sort_keys_perm.
  - apply unique_NoDup, String.eqb_spec.
Qed.

Lemma sort_keys_ascending (l : list string) :
  if forallb is_int (sort_keys l)
  then Sorted (fun a b => (int_val a <= int_val b)%Z) (sort_keys l)
  else Sorted (fun a b => String.leb a b = true) (sort_keys l).
Proof.
  assert (E : forallb is_int (sort_keys l) = forallb is_int l).
  { destruct (forallb is_int l) eqn:Hl.
    - apply forallb_forall. intros k Hk.
      apply (Permutation_in _ (sort_keys_perm l)) in Hk.
      revert k Hk. now apply forallb_forall.
    - destruct (forallb is_int (sort_keys l)) eqn:Hs; [|reflexivity].
      assert (Hl' : forallb is_int l = true); [|congruence].
      apply forallb_forall. intros k Hk.
      apply (Permutation_in _ (Permutation_sym (sort_keys_perm l))) in Hk.
      revert k Hk. now apply forallb_forall. }
  rewrite E. unfold sort_keys. destruct (forallb is_int l).
  - eapply Sorted_impl_rel; [|apply (isort_Sorted int_leb)].
    + intros a b. apply Z.leb_le.
    + intros a b. unfold int_leb. rewrite !Z.leb_le. lia.
  - apply isort_Sorted, String.leb_total.
Qed.

Lemma group_keys_ascending (s : list cell) :
  if forallb is_int (group_keys s)
  then Sorted (fun a b => (int_val a <= int_val b)%Z) (group_keys s)
  else Sorted (fun a b => String.leb a b = true) (group_keys s).
Proof. apply sort_keys_ascending. Qed.

Section GroupByFacts.
Context {A : Type} (key : A -> cell).

Lemma group_nonempty (k : string) (l : list A) :
  In (Some k) (map key l) <-> 1 <= length (group key k l).
Proof.
  unfold group. induction l as [|r t IH]; simpl.
  - split; [tauto | lia].
  - destruct (key r) as [s|] eqn:E; simpl.
    + destruct (String.eqb_spec s k) as [->|N]; simpl.
      * split; [lia | now left].
      * rewrite <- IH. split; [|tauto].
        intros [H|H]; [congruence | exact H].
    + rewrite <- IH. split; [|tauto].
      intros [H|H]; [discriminate | exact H].
Qed.

Lemma groupby_sum_In (val : A -> Z) (k : string) (v : Z) (l : list A) :
  In (k, v) (groupby_sum key val l) <->
  1 <= length (group key k l) /\ v = sum_Z (map val (group key k l)).
Proof.
  unfold groupby_sum. rewrite in_map_iff, <- group_nonempty. split.
  - intros (k' & E & Hin). inversion E; subst.
    split; [now apply group_keys_In | reflexivity].
  - intros [Hin ->]. exists k. split; [reflexivity|].
    now apply group_keys_In.
Qed.

Lemma groupby_size_In (k : string) (n : nat) (l : list A) :
  In (k, n) (groupby_size key l) <->
  1 <= n /\ n = length (group key k l).
Proof.
  unfold groupby_size. rewrite in_map_iff. split.
  - intros (k' & E & Hin). inversion E; subst.
    split; [|reflexivity]. now apply group_nonempty, group_keys_In.
  - intros [Hpos ->]. exists k. split; [reflexivity|].
    now apply group_keys_In, group_nonempty.
Qed.

Lemma groupby_sum_length (val : A -> Z) (l : list A) :
  length (groupby_sum key val l) = nunique (map key l).
Proof.
  unfold groupby_sum, group_keys, nunique.
  now rewrite length_map, (Permutation_length (sort_keys_perm _)).
Qed.

Lemma groupby_size_keys (l : list A) :
  map fst (groupby_size key l) = group_keys (map key l).
Proof. unfold groupby_size. rewrite map_map. apply map_id. Qed.

Lemma groupby_sum_keys (val : A -> Z) (l : list A) :
  map fst (groupby_sum key val l) = group_keys (map key l).
Proof. unfold groupby_sum. rewrite map_map. apply map_id. Qed.
End GroupByFacts.

(** ** [head] after a sort *)

Lemma StronglySorted_app_inv {A : Type} (R : A -> A -> Prop)
    (l1 l2 : list A) :
  StronglySorted R (l1 ++ l2) ->
  Forall (fun x => Forall (fun y => R x y) l2) l1.
Proof.
  induction l1 as [|x t IH]; simpl; intros Hs; constructor.
  - inversion Hs; subst. rewrite Forall_app in H2. tauto.
  - apply IH. now inversion Hs.
Qed.

Lemma head_length {A : Type} (n : nat) (l : list A) : length (head n l) <= n.
Proof. apply firstn_le_length. Qed.

Lemma head_In {A : Type} (n : nat) (l : list A) (x : A) :
  In x (head n l) -> In x l.
Proof.
  unfold head. intros Hin. rewrite <- (firstn_skipn n l).
  apply in_or_app. now left.
Qed.

Lemma head_short {A : Type} (n : nat) (l : list A) :
  length l <= n -> head n l = l.
Proof. apply firstn_all2. Qed.

Lemma head_StronglySorted {A : Type} (R : A -> A -> Prop) (n : nat)
    (l : list A) :
  StronglySorted R l -> StronglySorted R (head n l).
Proof.
  unfold head. revert n. induction l as [|x t IH]; intros [|n] Hs; simpl;
    try constructor.
  - apply IH. now inversion Hs.
  - inversion Hs; subst. rewrite Forall_forall in *.
    intros y Hy. apply H2. apply (head_In n). exact Hy.
Qed.

(** What [head] cuts off after a descending sort: together with the rows
    kept it is the table that was sorted, and no row cut off has a larger
    value than a row kept. *)
Lemma head_sorted_rest `{DescSorter} {A : Type} (k : A -> Z) (n : nat)
    (l : list A) :
  Permutation (head n (sort_values_desc k l) ++ skipn n (sort_values_desc k l))
              l
  /\ Forall (fun x => Forall (fun y => (k y <= k x)%Z)
                             (skipn n (sort_values_desc k l)))
            (head n (sort_values_desc k l)).
Proof.
  unfold head. split.
  - rewrite firstn_skipn. apply sort_values_desc_perm.
  - apply StronglySorted_app_inv. rewrite firstn_skipn.
    apply sort_values_desc_sorted.
Qed.

Lemma sum_Z_ones (l : list Z) :
  Forall (fun z => z = 1%Z) l -> sum_Z l = Z.of_nat (length l).
Proof.
  induction 1 as [|z t Hz Ht IH]; [reflexivity|].
  cbn [sum_Z fold_right length]. fold (sum_Z t). rewrite IH, Hz. lia.
Qed.

(** ** [nlargest] *)




Section NLargestFacts.
Context {A : Type} (col : A -> option Z).


Lemma largest_rows_length (n : nat) (l : list A) :
  length (largest_rows n col l) = Nat.min n (length l).
Proof.
  unfold largest_rows. now rewrite length_firstn, isort_length.
Qed.



End NLargestFacts.

End PandasFacts.

(* ===================================================================== *)
(** * The contracts in the words of the specification                     *)
(* ===================================================================== *)

Module Contract.
Import Pandas App.

(** A dimension of the filter is specified when its selection is not
    ["All"]. *)
Definition specified (selection : string) : bool :=
  negb (selection =? "All")%string.

(** The filter contract: the season matches when one is specified, and
    one of the two teams matches when one is specified. *)
Definition filter_contract (fs ft : string) (r : Match) : bool :=
  (if specified fs then eq_value (season r) fs else true)
  && (if specified ft
      then eq_value (team1 r) ft || eq_value (team2 r) ft
      else true).

(** [n] is the number of distinct values that the column [col] takes on
    the rows of [l]: the length of a duplicate-free list of exactly these
    values. *)
Definition distinct_count {A : Type} (col : A -> cell) (l : list A)
    (n : nat) : Prop :=
  exists vs : list string,
    NoDup vs /\ length vs = n
    /\ forall v, In v vs <-> exists r, In r l /\ col r = Some v.

(** A delivery credited to its bowler as a wicket: the wicket flag is set
    and the dismissal is not a run out. *)
Definition credited (r : Delivery) : bool :=
  (is_wicket r =? 1)%Z && ne_value (dismissal_kind r) "run out".




End Contract.

(* ===================================================================== *)
(** * Example tables                                                      *)
(* ===================================================================== *)

Module Examples.
Import Pandas App.

(** A match row that holds a season, the two teams and a winner. *)
Definition match_of (s t1 t2 : string) (w : cell) : Match :=
  {| season := Some s; date := None; city := None; venue := None;
     team1 := Some t1; team2 := Some t2;
     toss_winner := Some t1; toss_decision := Some "bat";
     winner := w; result := None; result_margin := None;
     player_of_match := None |}.

Definition three_matches : list Match :=
  [ match_of "2020" "A" "B" (Some "A");
    match_of "2020" "A" "C" (Some "C");
    match_of "2021" "B" "C" (Some "B") ].

(** One match won by A and one match without a result. *)
Definition with_no_result : list Match :=
  [ match_of "2020" "A" "B" (Some "A");
    match_of "2020" "A" "C" None ].

Definition wicket_of (b kind : string) : Delivery :=
  {| batter := None; bowler := Some b; batsman_runs := 0%Z;
     is_wicket := 1%Z; dismissal_kind := Some kind |}.

Definition three_deliveries : list Delivery :=
  [ wicket_of "X" "caught"; wicket_of "X" "run out"; wicket_of "Y" "bowled" ].

(** A match decided by runs, with a winner and a margin. *)
Definition won_by_runs (w : string) (m : Z) (s : string) : Match :=
  {| season := Some s; date := None; city := None; venue := None;
     team1 := Some w; team2 := Some "Z";
     toss_winner := None; toss_decision := None;
     winner := Some w; result := Some "runs"; result_margin := Some m;
     player_of_match := None |}.

Definition four_wins : list Match :=
  [ won_by_runs "A" 5 "2019"; won_by_runs "B" 9 "2019";
    won_by_runs "C" 5 "2020"; won_by_runs "D" 7 "2020" ].


(** Matches of the seasons 999 and 1000, a column of numbers. *)
Definition two_early_seasons : list Match :=
  [ match_of "1000" "A" "B" (Some "A"); match_of "999" "A" "B" (Some "B") ].

End Examples.

(* ===================================================================== *)
(** * Facts about the script                                              *)
(* ===================================================================== *)

Module AppFacts.
Import Pandas PandasFacts App Contract.

Lemma filter_filter {A : Type} (p q : A -> bool) (l : list A) :
  filter q (filter p l) = filter (fun r => p r && q r) l.
Proof.
  induction l as [|x t IH]; simpl; [reflexivity|].
  destruct (p x); simpl; [destruct (q x)|]; now rewrite IH.
Qed.

Lemma filter_true {A : Type} (l : list A) : filter (fun _ => true) l = l.
Proof. induction l; simpl; congruence. Qed.

Lemma filter_length_le {A : Type} (p : A -> bool) (l : list A) :
  length (filter p l) <= length l.
Proof.
  induction l as [|x t IH]; simpl; [lia|]. destruct (p x); simpl; lia.
Qed.

(** The rows counted under a present value [v] of a column. *)
Lemma count_column {A : Type} (col : A -> cell) (v : string) (l : list A) :
  count (key_eqb String.eqb) (Some v) (map col l)
  = length (filter (fun r => eq_value (col r) v) l).
Proof.
  unfold count. induction l as [|r t IH]; simpl; [reflexivity|].
  destruct (col r) as [s|]; simpl; [|exact IH].
  rewrite String.eqb_sym. destruct (String.eqb s v); simpl; congruence.
Qed.

Lemma eq_value_In {A : Type} (col : A -> cell) (v : string) (l : list A) :
  In (Some v) (map col l)
  <-> 1 <= length (filter (fun r => eq_value (col r) v) l).
Proof.
  induction l as [|r t IH]; simpl.
  - split; [tauto | lia].
  - destruct (col r) as [s|] eqn:E; simpl.
    + destruct (String.eqb_spec s v) as [->|N]; simpl.
      * split; [lia | now left].
      * rewrite <- IH. split; [|tauto].
        intros [H|H]; [congruence | exact H].
    + rewrite <- IH. split; [|tauto].
      intros [H|H]; [discriminate | exact H].
Qed.

Lemma nunique_distinct {A : Type} (col : A -> cell) (l : list A) (n : nat) :
  distinct_count col l n <-> n = nunique (map col l).
Proof.
  assert (Hmem : forall v, In v (unique String.eqb (dropna (map col l)))
                           <-> exists r, In r l /\ col r = Some v).
  { intros v. rewrite (unique_In _ String.eqb_spec), dropna_In, in_map_iff.
    split; intros (r & H1 & H2); exists r; tauto. }
  split.
  - intros (vs & Hnd & <- & Hvs). unfold nunique.
    apply Permutation_length, NoDup_Permutation.
    + exact Hnd.
    + apply unique_NoDup, String.eqb_spec.
    + intros v. now rewrite Hvs, Hmem.
  - intros ->. exists (unique String.eqb (dropna (map col l))).
    split; [apply unique_NoDup, String.eqb_spec|].
    split; [reflexivity | exact Hmem].
Qed.

Lemma count_bool_column {A : Type} (f : A -> bool) (b : bool) (l : list A) :
  count (key_eqb Bool.eqb) (Some b) (map (fun r => Some (f r)) l)
  = length (filter (fun r => Bool.eqb b (f r)) l).
Proof.
  unfold count. induction l as [|r t IH]; simpl; [reflexivity|].
  destruct (Bool.eqb b (f r)); simpl; congruence.
Qed.

Lemma bool_column_In {A : Type} (f : A -> bool) (b : bool) (l : list A) :
  In (Some b) (map (fun r => Some (f r)) l)
  <-> 1 <= length (filter (fun r => Bool.eqb b (f r)) l).
Proof.
  induction l as [|r t IH]; simpl.
  - split; [tauto | lia].
  - destruct (Bool.eqb_spec b (f r)) as [E|N]; simpl.
    + split; [lia | intros _; left; congruence].
    + rewrite <- IH. split; [|tauto].
      intros [H|H]; [congruence | exact H].
Qed.

Lemma total_relabel {K L : Type} (f : K -> L) (t : list (K * nat)) :
  total (map (fun kc => (f (fst kc), snd kc)) t) = total t.
Proof. unfold total. now rewrite map_map. Qed.

(** The two successive selections of the script are one selection by the
    contract. *)
Lemma filter_stage_filter (fs ft : string) (m : list Match) :
  filter_stage fs ft m = filter (filter_contract fs ft) m.
Proof.
  unfold filter_stage, filter_contract, specified.
  destruct (negb (fs =? "All")%string), (negb (ft =? "All")%string); simpl.
  - apply filter_filter.
  - apply filter_ext. intros r. now rewrite andb_true_r.
  - reflexivity.
  - now rewrite filter_true.
Qed.


(** ** Top wicket takers *)

Section BowlerFacts.
Context `{DescSorter}.

Lemma top_bowlers_credited (d : list Delivery) :
  top_bowlers d
  = head 10 (sort_values_desc snd
               (groupby_sum bowler is_wicket (filter credited d))).
Proof. unfold top_bowlers. now rewrite filter_filter. Qed.

Lemma credited_group (b : string) (d : list Delivery) :
  group bowler b (filter credited d)
  = filter (fun r => credited r && eq_value (bowler r) b) d.
Proof. unfold group. apply filter_filter. Qed.

Lemma credited_sum (b : string) (d : list Delivery) :
  sum_Z (map is_wicket (group bowler b (filter credited d)))
  = Z.of_nat (length (group bowler b (filter credited d))).
Proof.
  rewrite sum_Z_ones; [now rewrite length_map|].
  rewrite Forall_forall. intros z Hz.
  apply in_map_iff in Hz. destruct Hz as (r & <- & Hr).
  unfold group in Hr. rewrite !filter_In in Hr.
  destruct Hr as [[_ Hc] _]. unfold credited in Hc.
  apply andb_prop in Hc. now apply Z.eqb_eq.
Qed.

Lemma bowler_totals_In (d : list Delivery) (b : string) (w : Z) :
  In (b, w) (groupby_sum bowler is_wicket (filter credited d)) <->
  1 <= length (filter (fun r => credited r && eq_value (bowler r) b) d)
  /\ w = Z.of_nat
           (length (filter (fun r => credited r && eq_value (bowler r) b) d)).
Proof.
  rewrite groupby_sum_In, credited_sum, credited_group. reflexivity.
Qed.

Lemma top_bowlers_entry (d : list Delivery) (b : string) (w : Z) :
  In (b, w) (top_bowlers d) ->
  (1 <= w)%Z
  /\ w = Z.of_nat
           (length (filter (fun r => credited r && eq_value (bowler r) b)
                           d)).
Proof.
  rewrite top_bowlers_credited. intros Hin.
  apply head_In in Hin.
  apply (Permutation_in _ (sort_values_desc_perm _ _ _)) in Hin.
  apply groupby_sum_In in Hin. destruct Hin as [Hpos ->].
  rewrite credited_sum. rewrite credited_group in *. lia.
Qed.
End BowlerFacts.

End AppFacts.

(* ===================================================================== *)
(** * The claims of the specification                                     *)
(* ===================================================================== *)

Module Spec.
Import Pandas PandasFacts App Contract AppFacts Examples.

(** ** Filter stage and KPI cards *)

(** C4. For every match table and every filter {season, team} the filter
    stage returns exactly the rows the contract selects, in table order;
    ["All"] leaves a dimension unfiltered.  On the three-row example the
    season filter ["2020"] keeps two rows, and the wins per team of these
    are A:1 and C:1. *)
Theorem C4_filter_stage_contract :
  forall (S : DescSorter) (fs ft : string) (matches : list Match),
    filter_stage fs ft matches = filter (filter_contract fs ft) matches
    /\ filter_stage "All" "All" matches = matches
    /\ filter_stage "All" ft matches
       = filter (fun r => if specified ft
                          then eq_value (team1 r) ft || eq_value (team2 r) ft
                          else true) matches
    /\ filter_stage fs "All" matches
       = filter (fun r => if specified fs
                          then eq_value (season r) fs
                          else true) matches
    /\ length (filter_stage "2020" "All" three_matches) = 2
    /\ Permutation (wins (filter_stage "2020" "All" three_matches))
         [(Some "A", 1); (Some "C", 1)].
Proof.
  intros S fs ft matches.
  split; [apply filter_stage_filter|].
  split; [reflexivity|].
  split; [apply filter_stage_filter|].
  split.
  { rewrite filter_stage_filter. apply filter_ext. intros r.
    unfold filter_contract. simpl. apply andb_true_r. }
  split; [reflexivity|].
  unfold wins, value_counts.
  etransitivity; [apply value_counts_gen_perm|]. reflexivity.
Qed.

(** C8. For every match table and every filter the filtered table is
    obtained by dropping rows of the full table: every filtered row is a
    row of the full table, and the filtered table is no longer than the
    full one. *)
Theorem C8_filtered_is_subset :
  forall (fs ft : string) (matches : list Match),
    let df := filter_stage fs ft matches in
    (exists keep : Match -> bool, df = filter keep matches)
    /\ incl df matches
    /\ length df <= length matches.
Proof.
  intros fs ft matches df.
  assert (E : df = filter (filter_contract fs ft) matches)
    by apply filter_stage_filter.
  rewrite E. repeat split.
  - now exists (filter_contract fs ft).
  - apply incl_filter.
  - apply filter_length_le.
Qed.

(** C7, as the code has it.  For every filtered match table the KPI
    summary is four scalars: the number of rows and the numbers of
    distinct venues, cities and seasons.  Each of the three is the number
    of distinct values present in its column, and no other number is.  On
    a table of one row the venue scalar is 1 when the row has a venue and
    0 when the venue is missing. *)
Theorem C7_kpi_summary :
  forall (df : list Match),
    total_matches (kpi df) = length df
    /\ (forall n, distinct_count venue df n <-> n = venues (kpi df))
    /\ (forall n, distinct_count city df n <-> n = cities (kpi df))
    /\ (forall n, distinct_count season df n <-> n = seasons (kpi df))
    /\ (forall r : Match,
          venues (kpi [r]) = if notna (venue r) then 1 else 0).
Proof.
  intros df.
  split; [reflexivity|].
  split; [intros n; apply nunique_distinct|].
  split; [intros n; apply nunique_distinct|].
  split; [intros n; apply nunique_distinct|].
  intros r. unfold kpi, nunique. simpl. now destruct (venue r).
Qed.

(** C7 fails as stated on a single row: a match without a venue is one
    row, and the venue card shows 0. *)
Lemma C7_single_row_without_venue :
  length [match_of "2020" "A" "B" (Some "A")] = 1
  /\ venues (kpi [match_of "2020" "A" "B" (Some "A")]) = 0
  /\ venues (kpi [match_of "2020" "A" "B" (Some "A")]) <> 1.
Proof. repeat split. discriminate. Qed.

(** ** Value counts *)

(** C1, as the code has it.  For every match table and every grouping
    column, [value_counts] returns (value, count) pairs with distinct
    values, none of them the missing value; a value is listed exactly when
    some row holds it, with the number of rows that hold it; and the
    counts add up to the number of rows whose cell is present.  Rows with
    a missing cell are left out.  This holds of the wins per team and of
    the toss decisions in particular. *)
Theorem C1_value_counts_present_rows :
  forall (S : DescSorter) (col : Match -> cell) (df : list Match),
    let vc := value_counts String.eqb (map col df) in
    total vc = length (filter (fun r => notna (col r)) df)
    /\ ~ In None (map fst vc)
    /\ NoDup (map fst vc)
    /\ (forall v c,
          In (Some v, c) vc
          <-> 1 <= c /\ c = length (filter (fun r => eq_value (col r) v) df))
    /\ total (wins df) = length (filter (fun r => notna (winner r)) df)
    /\ total (toss df)
       = length (filter (fun r => notna (toss_decision r)) df).
Proof.
  intros S col df vc.
  assert (Htot : forall c' : Match -> cell,
            total (value_counts String.eqb (map c' df))
            = length (filter (fun r => notna (c' r)) df)).
  { intros c'. rewrite (value_counts_total _ String.eqb_spec).
    apply dropna_map. }
  split; [apply Htot|].
  split.
  { rewrite in_map_iff. intros ([k c] & E & Hin). simpl in E. subst k.
    apply (value_counts_In _ String.eqb_spec) in Hin.
    destruct Hin as (x & E & _). discriminate. }
  split; [apply value_counts_keys_NoDup, String.eqb_spec|].
  split.
  { intros v c. unfold vc.
    rewrite (value_counts_In _ String.eqb_spec). split.
    - intros (x & E & Hin & ->). inversion E; subst x.
      rewrite count_column. split; [|reflexivity].
      now apply eq_value_In.
    - intros [Hpos ->]. exists v. rewrite count_column.
      split; [reflexivity|]. split; [|reflexivity].
      now apply eq_value_In. }
  split; apply Htot.
Qed.

(** C1 fails as stated: of a match won by A and a match without a result,
    only the first is counted; no category stands for the missing
    winner. *)
Lemma C1_null_winner_dropped :
  @wins stable_sorter with_no_result = [(Some "A", 1)]
  /\ total (@wins stable_sorter with_no_result) <> length with_no_result
  /\ ~ In None (map fst (@wins stable_sorter with_no_result)).
Proof.
  split; [reflexivity|].
  split; [discriminate|].
  simpl. intros [E|[]]. discriminate.
Qed.

(** C5. For every filtered match table the toss summary compares the
    toss winner with the match winner row by row (the two are equal when
    both are present and the same team), counts the two outcomes and
    labels them: "Yes" carries the number of rows where the
    two are equal, "No" the number of rows where they are not, an outcome
    that no row has is not listed, and every row is counted once.  A row
    whose winner is missing compares as false, so it is one of the rows
    counted under "No". *)
Theorem C5_toss_effect :
  forall (S : DescSorter) (df : list Match),
    (forall lbl c,
        In (lbl, c) (toss_effect df)
        <-> 1 <= c
            /\ ((lbl = Some "Yes"
                 /\ c = length (filter toss_match_win df))
                \/ (lbl = Some "No"
                    /\ c = length (filter (fun r => negb (toss_match_win r))
                                          df))))
    /\ total (toss_effect df) = length df
    /\ (forall r : Match,
          toss_match_win r = true
          <-> exists t, toss_winner r = Some t /\ winner r = Some t)
    /\ Forall (fun r => toss_match_win r = false)
              (filter (fun r => isna (winner r)) df)
    /\ incl (filter (fun r => isna (winner r)) df)
            (filter (fun r => negb (toss_match_win r)) df).
Proof.
  intros S df.
  assert (Hcol : map (fun p : Match * bool => Some (snd p))
                     (map (fun r => (r, toss_match_win r)) df)
                 = map (fun r => Some (toss_match_win r)) df)
    by now rewrite map_map.
  assert (Hnull : forall r : Match, winner r = None ->
                                    toss_match_win r = false).
  { intros r E. unfold toss_match_win. rewrite E.
    now destruct (toss_winner r). }
  split.
  { intros lbl c. unfold toss_effect. rewrite Hcol, in_map_iff. split.
    - intros ([k c'] & E & Hin). simpl in E. inversion E; subst lbl c'.
      apply (value_counts_In _ Bool.eqb_spec) in Hin.
      destruct Hin as (b & -> & Hin & ->).
      rewrite count_bool_column. apply bool_column_In in Hin.
      split; [exact Hin|].
      destruct b; [left | right]; (split; [reflexivity|]);
        f_equal; apply filter_ext; intros r; now destruct (toss_match_win r).
    - intros [Hpos [[-> ->] | [-> ->]]].
      + exists (Some true, length (filter toss_match_win df)).
        split; [reflexivity|].
        apply (value_counts_In _ Bool.eqb_spec). exists true.
        split; [reflexivity|]. rewrite count_bool_column, bool_column_In.
        assert (E : filter (fun r => Bool.eqb true (toss_match_win r)) df
                    = filter toss_match_win df)
          by (apply filter_ext; intros r; now destruct (toss_match_win r)).
        rewrite E. now split.
      + exists (Some false,
                length (filter (fun r => negb (toss_match_win r)) df)).
        split; [reflexivity|].
        apply (value_counts_In _ Bool.eqb_spec). exists false.
        split; [reflexivity|]. rewrite count_bool_column, bool_column_In.
        assert (E : filter (fun r => Bool.eqb false (toss_match_win r)) df
                    = filter (fun r => negb (toss_match_win r)) df)
          by (apply filter_ext; intros r; now destruct (toss_match_win r)).
        rewrite E. now split. }
  split.
  { unfold toss_effect. rewrite Hcol, total_relabel.
    rewrite (value_counts_total _ Bool.eqb_spec).
    clear Hcol. induction df as [|r t IH]; simpl; congruence. }
  assert (Hna : forall r : Match, isna (winner r) = true ->
                                  toss_match_win r = false).
  { intros r E. apply Hnull. unfold isna in E. now destruct (winner r). }
  split.
  { intros r. unfold toss_match_win, eq_cells.
    destruct (toss_winner r) as [a|], (winner r) as [b|].
    - rewrite String.eqb_eq. split.
      + intros ->. now exists b.
      + intros (t & E1 & E2). congruence.
    - split; [discriminate | intros (t & _ & E); discriminate].
    - split; [discriminate | intros (t & E & _); discriminate].
    - split; [discriminate | intros (t & E & _); discriminate]. }
  split.
  { apply Forall_forall. intros r Hin. apply filter_In in Hin.
    now apply Hna. }
  intros r. rewrite !filter_In. intros [Hin E]. split; [exact Hin|].
  now rewrite Hna.
Qed.

(** ** Delivery tables *)

(** C2. For every delivery table, the top wicket takers are the first ten
    rows, in descending order of the total, of the per-bowler sums of the
    wicket flag over the credited deliveries (flag set and dismissal not
    a run out).  The table has ten rows, or as many as there are bowlers
    with a credited delivery when these are fewer.  With the rows cut off
    it lists every bowler with a credited delivery exactly once, against
    the number of credited deliveries of that bowler, and nobody else;
    no total cut off is larger than a total kept.  A delivery dismissed
    by run out adds to no total: the table is the same with and without
    it.  On the example (X caught, X run out, Y bowled) the table is X:1
    and Y:1, and X:2 is not in it. *)
Theorem C2_run_outs_not_credited :
  forall (S : DescSorter) (deliveries : list Delivery),
    top_bowlers deliveries
    = head 10 (sort_values_desc snd
                 (groupby_sum bowler is_wicket (filter credited deliveries)))
    /\ (exists n : nat,
          distinct_count bowler (filter credited deliveries) n
          /\ length (top_bowlers deliveries) = Nat.min 10 n)
    /\ StronglySorted (fun x y => (snd y <= snd x)%Z) (top_bowlers deliveries)
    /\ (exists rest : list (string * Z),
          Permutation (top_bowlers deliveries ++ rest)
            (groupby_sum bowler is_wicket (filter credited deliveries))
          /\ Forall (fun x => Forall (fun y => (snd y <= snd x)%Z) rest)
                    (top_bowlers deliveries)
          /\ NoDup (map fst (top_bowlers deliveries ++ rest))
          /\ forall (b : string) (w : Z),
               In (b, w) (top_bowlers deliveries ++ rest)
               <-> 1 <= length (filter (fun r => credited r
                                                 && eq_value (bowler r) b)
                                       deliveries)
                   /\ w = Z.of_nat
                            (length (filter (fun r => credited r
                                                      && eq_value (bowler r) b)
                                            deliveries)))
    /\ Forall (fun bw =>
                 snd bw
                 = Z.of_nat
                     (length (filter (fun r => credited r
                                               && eq_value (bowler r) (fst bw))
                                     deliveries)))
              (top_bowlers deliveries)
    /\ (forall (d1 d2 : list Delivery) (bt bw : cell) (runs flag : Z),
          top_bowlers
            (d1 ++ mkDelivery bt bw runs flag (Some "run out") :: d2)
          = top_bowlers (d1 ++ d2))
    /\ Permutation (top_bowlers three_deliveries) [("X", 1%Z); ("Y", 1%Z)]
    /\ ~ In ("X", 2%Z) (top_bowlers three_deliveries).
Proof.
  intros S deliveries.
  assert (Hex : Permutation (top_bowlers three_deliveries)
                            [("X", 1%Z); ("Y", 1%Z)]).
  { rewrite top_bowlers_credited.
    change (groupby_sum bowler is_wicket (filter credited three_deliveries))
      with [("X", 1%Z); ("Y", 1%Z)].
    rewrite head_short.
    - apply sort_values_desc_perm.
    - rewrite (Permutation_length (sort_values_desc_perm _ _ _)). simpl. lia. }
  split; [apply top_bowlers_credited|].
  split.
  { exists (nunique (map bowler (filter credited deliveries))).
    split; [now apply nunique_distinct|].
    rewrite top_bowlers_credited. unfold head.
    rewrite length_firstn, (Permutation_length (sort_values_desc_perm _ _ _)).
    now rewrite groupby_sum_length. }
  split.
  { rewrite top_bowlers_credited.
    apply head_StronglySorted, sort_values_desc_sorted. }
  split.
  { rewrite top_bowlers_credited.
    destruct (head_sorted_rest (@snd string Z) 10
                (groupby_sum bowler is_wicket (filter credited deliveries)))
      as [Hperm Hle].
    eexists. split; [exact Hperm|]. split; [exact Hle|]. split.
    - eapply Permutation_NoDup.
      + apply Permutation_map, Permutation_sym, Hperm.
      + rewrite groupby_sum_keys. apply group_keys_NoDup.
    - intros b w. rewrite (perm_In _ _ _ Hperm). apply bowler_totals_In. }
  split.
  { apply Forall_forall. intros [b w] Hin. simpl.
    now apply top_bowlers_entry in Hin. }
  split.
  { intros d1 d2 bt bw runs flag. rewrite !top_bowlers_credited.
    rewrite !filter_app. simpl.
    unfold credited at 2. simpl. now rewrite andb_false_r. }
  split; [exact Hex|].
  intros Hin. apply (Permutation_in _ Hex) in Hin.
  simpl in Hin. destruct Hin as [E|[E|[]]]; discriminate.
Qed.

(** C10. For every pair of input tables and every filter, the top venues,
    the top players of the match, the top run scorers and the top wicket
    takers have at most ten rows each, and every total among the top
    wicket takers is at least 1. *)
Theorem C10_top_tables_bounded :
  forall (S : DescSorter) (matches : list Match) (deliveries : list Delivery)
         (fs ft : string),
    let D := render matches deliveries fs ft in
    length (d_venue_counts D) <= 10
    /\ length (d_potm D) <= 10
    /\ length (d_top_batsmen D) <= 10
    /\ length (d_top_bowlers D) <= 10
    /\ Forall (fun bw => (1 <= snd bw)%Z) (d_top_bowlers D).
Proof.
  intros S matches deliveries fs ft D.
  repeat (split; [apply head_length|]).
  apply Forall_forall. intros [b w] Hin. simpl.
  now apply top_bowlers_entry in Hin.
Qed.

(** C6. The top run scorers and the top wicket takers are computed from
    the delivery table alone: for every pair of filters (and every pair
    of match tables) the two tables are the same. *)
Theorem C6_delivery_tables_ignore_filter :
  forall (S : DescSorter) (matches matches' : list Match)
         (deliveries : list Delivery) (fs ft fs' ft' : string),
    d_top_batsmen (render matches deliveries fs ft)
    = d_top_batsmen (render matches' deliveries fs' ft')
    /\ d_top_bowlers (render matches deliveries fs ft)
       = d_top_bowlers (render matches' deliveries fs' ft')
    /\ d_top_batsmen (render matches deliveries fs ft)
       = top_batsmen deliveries
    /\ d_top_bowlers (render matches deliveries fs ft)
       = top_bowlers deliveries.
Proof. intros. repeat split. Qed.

(** C9. The matches per season are computed from the full match table:
    for every pair of filters the table is the same, namely one row per
    season present in the full table, in ascending order of the season
    (by value when the seasons are numbers, as text otherwise), with the
    number of matches of the full table played in it. *)
Theorem C9_season_matches_ignore_filter :
  forall (S : DescSorter) (matches : list Match)
         (deliveries deliveries' : list Delivery) (fs ft fs' ft' : string),
    d_season_matches (render matches deliveries fs ft)
    = d_season_matches (render matches deliveries' fs' ft')
    /\ d_season_matches (render matches deliveries fs ft)
       = groupby_size season matches
    /\ (let keys :=
          map fst (d_season_matches (render matches deliveries fs ft)) in
        if forallb is_int keys
        then Sorted (fun a b => (int_val a <= int_val b)%Z) keys
        else Sorted (fun a b => String.leb a b = true) keys)
    /\ NoDup (map fst (d_season_matches (render matches deliveries fs ft)))
    /\ (forall s n,
          In (s, n) (d_season_matches (render matches deliveries fs ft))
          <-> 1 <= n
              /\ n = length (filter (fun r => eq_value (season r) s)
                                    matches))
    /\ d_season_matches (render two_early_seasons deliveries fs ft)
       = [("999", 1); ("1000", 1)].
Proof.
  intros S matches deliveries deliveries' fs ft fs' ft'. simpl.
  unfold season_matches.
  split; [reflexivity|].
  split; [reflexivity|].
  split; [rewrite groupby_size_keys; apply group_keys_ascending|].
  split; [rewrite groupby_size_keys; apply group_keys_NoDup|].
  split; [|reflexivity].
  intros s n. apply groupby_size_In.
Qed.

(** ** Biggest wins *)



(** The two largest of the margins 5, 9, 5, 7 are 9 and 7; the three
    largest are 9, 7 and the first of the two 5s. *)
Example by_margin_four_wins :
  top_margin Numeric 2 "runs" four_wins
  = Some [(Some "B", Some 9%Z, Some "2019");
          (Some "D", Some 7%Z, Some "2020")]
  /\ top_margin Numeric 3 "runs" four_wins
     = Some [(Some "B", Some 9%Z, Some "2019");
             (Some "D", Some 7%Z, Some "2020");
             (Some "A", Some 5%Z, Some "2019")]
  /\ top_margin Numeric 3 "wickets" four_wins = Some [].
Proof. repeat split. Qed.

(** ** One run of the script *)

(** The example tables under the season filter ["2020"], with the stable
    sort. *)
Example render_example :
  let D := @render stable_sorter three_matches three_deliveries "2020" "All" in
  d_kpi D = {| total_matches := 2; venues := 0; cities := 0; seasons := 1 |}
  /\ d_wins D = [(Some "A", 1); (Some "C", 1)]
  /\ d_toss D = [(Some "bat", 2)]
  /\ d_season_matches D = [("2020", 2); ("2021", 1)]
  /\ d_toss_effect D = [(Some "Yes", 1); (Some "No", 1)]
  /\ d_top_batsmen D = []
  /\ d_top_bowlers D = [("X", 1%Z); ("Y", 1%Z)]
  /\ d_by_runs D = Some [].
Proof. repeat split. Qed.

End Spec.

(* ===================================================================== *)
(** * The sidebar options (lines 37-41)                                   *)
(* ===================================================================== *)

Module Sidebar.
Import Pandas App.

(** What [sorted] makes of a list of values. *)
Inductive options : Type :=
| Ordered (l : list cell)
    (** the list [l], which is in ascending order *)
| Unordered (l : list cell)
    (** the values of [l] in an arrangement that is left open *)
| TypeError.
    (** no list: two values could not be compared *)

(** Python's [sorted] on the values of columns of one dtype.  Without a
    missing value the result is ascending, numbers by value and text
    character by character.  A missing value is a float.  Compared with
    text it raises [TypeError].  Compared with a number it is neither
    smaller nor larger, which leaves the numbers in an arrangement that
    need not be ascending; which one is not modelled.  A list of missing
    values only comes back as it is. *)
Definition py_sorted (l : list cell) : options :=
  if forallb notna l then Ordered (map Some (sort_keys (dropna l)))
  else if forallb is_int (dropna l)
       then match dropna l with
            | [] => Ordered l
            | _ :: _ => Unordered l
            end
       else TypeError.

(** [Series.unique()]: the distinct values in order of appearance, the
    missing value among them. *)
Definition series_unique (s : list cell) : list cell :=
  unique (key_eqb String.eqb) s.

(** [sorted(matches["season"].unique())]. *)
Definition all_seasons (matches : list Match) : options :=
  py_sorted (series_unique (map season matches)).

(** The union of two sets of cells.  A value is held once.  The missing
    value is equal to nothing, itself included, so each side can bring its
    own. *)
Definition set_union (a b : list cell) : list cell :=
  unique eq_cells (a ++ b).

(** [sorted(set(matches["team1"].unique()) | set(matches["team2"].unique()))].
    The order of a set is not fixed, and none is needed: the union is
    sorted next.  When one column is numeric and the other is text, the
    union holds a number or a missing value beside a text, and [sorted]
    raises [TypeError]. *)
Definition all_teams (matches : list Match) : options :=
  match column_dtype (map team1 matches), column_dtype (map team2 matches) with
  | Numeric, Object | Object, Numeric => TypeError
  | _, _ =>
      py_sorted (set_union (series_unique (map team1 matches))
                           (series_unique (map team2 matches)))
  end.

(** The script from the sidebar on: it stops before any table when one of
    the two option lists cannot be built. *)
Definition page `{DescSorter} (matches : list Match)
    (deliveries : list Delivery) (selected_season selected_team : string)
    : option Dashboard :=
  match all_seasons matches, all_teams matches with
  | TypeError, _ => None
  | _, TypeError => None
  | _, _ => Some (render matches deliveries selected_season selected_team)
  end.

End Sidebar.

(* ===================================================================== *)
(** * Further facts                                                       *)
(* ===================================================================== *)

Module MoreFacts.
Import Pandas PandasFacts App Contract AppFacts Sidebar.

(** ** Sorting and counting an empty column *)

Lemma sort_values_desc_nil `{DescSorter} {A : Type} (k : A -> Z) :
  sort_values_desc k (@nil A) = [].
Proof.
  apply Permutation_nil, Permutation_sym, sort_values_desc_perm.
Qed.

Lemma value_counts_nil `{DescSorter} {X : Type} (eqb : X -> X -> bool) :
  value_counts eqb [] = [].
Proof. apply sort_values_desc_nil. Qed.

Lemma value_counts_length `{DescSorter} {X : Type} (eqb : X -> X -> bool)
    (s : list (option X)) :
  length (value_counts eqb s)
  = length (unique (key_eqb eqb) (filter notna s)).
Proof.
  unfold value_counts.
  rewrite (Permutation_length (value_counts_gen_perm eqb true s)).
  apply length_map.
Qed.

(** ** Distinct values *)

Lemma unique_length_le {X : Type} (eqb : X -> X -> bool) (l : list X) :
  length (unique eqb l) <= length l.
Proof.
  induction l as [|x t IH]; simpl; [lia|].
  pose proof (filter_length_le (fun y => negb (eqb x y)) (unique eqb t)).
  lia.
Qed.

Lemma dropna_length_le {X : Type} (s : list (option X)) :
  length (dropna s) <= length s.
Proof. induction s as [|[x|] t IH]; simpl; lia. Qed.

Lemma nunique_le_length (s : list cell) : nunique s <= length s.
Proof.
  unfold nunique.
  eapply Nat.le_trans; [apply unique_length_le | apply dropna_length_le].
Qed.

Lemma nunique_incl (s s' : list cell) :
  incl s s' -> nunique s <= nunique s'.
Proof.
  intros Hincl. unfold nunique. apply NoDup_incl_length.
  - apply unique_NoDup, String.eqb_spec.
  - intros v. rewrite !(unique_In _ String.eqb_spec), !dropna_In.
    apply Hincl.
Qed.

Lemma unique_const {X : Type} (eqb : X -> X -> bool) (v : X) (l : list X) :
  eqb v v = true -> Forall (eq v) l -> l <> [] -> unique eqb l = [v].
Proof.
  intros Hv Hall. induction Hall as [|x t <- Ht IH]; [congruence|].
  intros _. simpl. destruct t as [|y t'].
  - reflexivity.
  - rewrite IH by discriminate. simpl. now rewrite Hv.
Qed.

Lemma dropna_const {X : Type} (v : X) (s : list (option X)) :
  Forall (eq (Some v)) s -> Forall (eq v) (dropna s).
Proof.
  induction 1 as [|c t <- Ht IH]; simpl; constructor; auto.
Qed.

Lemma NoDup_head {A : Type} (n : nat) (l : list A) :
  NoDup l -> NoDup (head n l).
Proof.
  unfold head. revert n. induction l as [|x t IH]; intros [|n] Hnd; simpl;
    try constructor.
  - inversion Hnd; subst. intros Hin. apply H1. now apply (head_In n).
  - apply IH. now inversion Hnd.
Qed.

Lemma head_map {A B : Type} (f : A -> B) (n : nat) (l : list A) :
  map f (head n l) = head n (map f l).
Proof. unfold head. symmetry. apply firstn_map. Qed.

(** ** Tables of counts *)

Lemma value_counts_head_rest `{DescSorter} {X : Type}
    (eqb : X -> X -> bool) (n : nat) (s : list (option X)) :
  exists rest : list (option X * nat),
    Permutation (head n (value_counts eqb s) ++ rest) (value_counts eqb s)
    /\ Forall (fun x => Forall (fun y => snd y <= snd x) rest)
              (head n (value_counts eqb s)).
Proof.
  exists (skipn n (value_counts eqb s)). unfold head. split.
  - now rewrite firstn_skipn.
  - apply StronglySorted_app_inv. rewrite firstn_skipn.
    apply value_counts_sorted.
Qed.

Lemma group_count {A : Type} (key : A -> cell) (k : string) (l : list A) :
  length (group key k l) = count String.eqb k (dropna (map key l)).
Proof.
  unfold group, count. induction l as [|r t IH]; simpl; [reflexivity|].
  destruct (key r) as [s|]; simpl; [|exact IH].
  rewrite (String.eqb_sym k s). destruct (String.eqb s k); simpl; congruence.
Qed.

Lemma groupby_size_total {A : Type} (key : A -> cell) (l : list A) :
  total (groupby_size key l) = length (dropna (map key l)).
Proof.
  unfold total, groupby_size. rewrite map_map. cbn [snd].
  rewrite (map_ext _ (fun k => count String.eqb k (dropna (map key l))))
    by (intro k; apply group_count).
  apply (counts_cover _ String.eqb_spec).
  - apply group_keys_NoDup.
  - intros x Hx. apply group_keys_In. now apply dropna_In.
Qed.

Lemma groupby_size_length {A : Type} (key : A -> cell) (l : list A) :
  length (groupby_size key l) = nunique (map key l).
Proof.
  unfold groupby_size, group_keys, nunique.
  now rewrite length_map, (Permutation_length (sort_keys_perm _)).
Qed.

Lemma NoDup_map_injective {A B : Type} (f : A -> B) (l : list A) :
  (forall x y, f x = f y -> x = y) -> NoDup l -> NoDup (map f l).
Proof.
  intros Hinj. induction 1 as [|x t Hx Hnd IH]; simpl; constructor.
  - rewrite in_map_iff. intros (y & E & Hy). apply Hinj in E. now subst.
  - exact IH.
Qed.

(** ** Sums over groups *)

Lemma sum_Z_cons (z : Z) (l : list Z) : sum_Z (z :: l) = (z + sum_Z l)%Z.
Proof. reflexivity. Qed.

Lemma sum_Z_app (l1 l2 : list Z) :
  sum_Z (l1 ++ l2) = (sum_Z l1 + sum_Z l2)%Z.
Proof.
  unfold sum_Z. induction l1 as [|z t IH]; simpl; [reflexivity|].
  rewrite IH. lia.
Qed.

Lemma sum_Z_perm (l l' : list Z) : Permutation l l' -> sum_Z l = sum_Z l'.
Proof. unfold sum_Z. induction 1; simpl; lia. Qed.

Lemma pick_absent (s : string) (v : Z) (ks : list string) :
  ~ In s ks ->
  sum_Z (map (fun k => if String.eqb s k then v else 0%Z) ks) = 0%Z.
Proof.
  induction ks as [|k t IH]; [reflexivity|].
  intros Hn. cbn [map]. rewrite sum_Z_cons.
  destruct (String.eqb_spec s k) as [E|N].
  - exfalso. apply Hn. now left.
  - rewrite IH; [reflexivity|]. intros Hin. apply Hn. now right.
Qed.

Lemma pick_once (s : string) (v : Z) (ks : list string) :
  NoDup ks -> In s ks ->
  sum_Z (map (fun k => if String.eqb s k then v else 0%Z) ks) = v.
Proof.
  induction 1 as [|k t Hk Hnd IH]; [intros []|].
  intros Hin. cbn [map]. rewrite sum_Z_cons. destruct Hin as [E|Hin].
  - subst. rewrite String.eqb_refl, pick_absent by assumption. lia.
  - destruct (String.eqb_spec s k) as [E|N]; [subst; contradiction|].
    rewrite IH by assumption. lia.
Qed.

Section GroupSums.
Context {A : Type} (key : A -> cell) (val : A -> Z).

(** Over distinct keys that cover the present keys of the rows, the sums
    of the groups add up to the sum over the rows that have a key. *)
Lemma group_sums_cover (ks : list string) (l : list A) :
  NoDup ks -> (forall k, In (Some k) (map key l) -> In k ks) ->
  sum_Z (map (fun k => sum_Z (map val (group key k l))) ks)
  = sum_Z (map val (filter (fun r => notna (key r)) l)).
Proof.
  intros Hnd. induction l as [|r t IH]; intros Hcov.
  - simpl. clear. induction ks as [|k ks' IHk]; [reflexivity|].
    simpl in *. now rewrite IHk.
  - assert (Hsplit : forall ks',
      sum_Z (map (fun k => sum_Z (map val (group key k (r :: t)))) ks')
      = (sum_Z (map (fun k => if eq_value (key r) k then val r else 0%Z) ks')
         + sum_Z (map (fun k => sum_Z (map val (group key k t))) ks'))%Z).
    { induction ks' as [|k ks' IHk]; [reflexivity|].
      cbn [map]. rewrite !sum_Z_cons, IHk. unfold group. cbn [filter].
      destruct (eq_value (key r) k); cbn [map]; rewrite ?sum_Z_cons; lia. }
    rewrite Hsplit, IH.
    + cbn [filter]. destruct (key r) as [s|] eqn:E; cbn [notna eq_value map].
      * rewrite pick_once; [reflexivity | exact Hnd |].
        apply Hcov. simpl. left. now rewrite E.
      * assert (Hz : forall ks', sum_Z (map (fun _ : string => 0%Z) ks') = 0%Z).
        { induction ks' as [|k ks' IHk]; [reflexivity|]. simpl in *.
          now rewrite IHk. }
        now rewrite Hz.
    + intros k Hk. apply Hcov. now right.
Qed.

Lemma groupby_sum_total (l : list A) :
  sum_Z (map snd (groupby_sum key val l))
  = sum_Z (map val (filter (fun r => notna (key r)) l)).
Proof.
  unfold groupby_sum. rewrite map_map. cbn [snd].
  apply group_sums_cover.
  - apply group_keys_NoDup.
  - intros k. apply group_keys_In.
Qed.

Lemma dropna_app {X : Type} (s1 s2 : list (option X)) :
  dropna (s1 ++ s2) = dropna s1 ++ dropna s2.
Proof.
  induction s1 as [|[x|] t IH]; simpl; congruence.
Qed.

(** A row without a key belongs to no group. *)
Lemma groupby_sum_skip (r : A) (l1 l2 : list A) :
  key r = None ->
  groupby_sum key val (l1 ++ r :: l2) = groupby_sum key val (l1 ++ l2).
Proof.
  intros Hr. unfold groupby_sum, group_keys.
  rewrite !map_app. unfold cell. rewrite !dropna_app. cbn [map]. rewrite Hr. cbn [dropna].
  apply map_ext. intros k. unfold group.
  rewrite !filter_app. cbn [filter]. rewrite Hr. reflexivity.
Qed.
End GroupSums.

(** ** Tables cut by [head] after a sort *)

Section TopTables.
Context `{DescSorter}.

Lemma top_keys_NoDup (n : nat) (l : list (string * Z)) :
  NoDup (map fst l) ->
  NoDup (map fst (head n (sort_values_desc snd l))).
Proof.
  intros Hnd. rewrite head_map. apply NoDup_head.
  eapply Permutation_NoDup; [|exact Hnd].
  apply Permutation_map, Permutation_sym, sort_values_desc_perm.
Qed.

(** The rows kept and the rows cut off share out the sum of the table. *)
Lemma top_rest_sum (n : nat) (l : list (string * Z)) :
  exists rest : list (string * Z),
    Permutation (head n (sort_values_desc snd l) ++ rest) l
    /\ Forall (fun x => Forall (fun y => (snd y <= snd x)%Z) rest)
              (head n (sort_values_desc snd l))
    /\ (sum_Z (map snd (head n (sort_values_desc snd l)))
        + sum_Z (map snd rest))%Z
       = sum_Z (map snd l).
Proof.
  destruct (head_sorted_rest (@snd string Z) n l) as [Hperm Hle].
  eexists. split; [exact Hperm|]. split; [exact Hle|].
  rewrite <- sum_Z_app, <- map_app.
  apply sum_Z_perm, Permutation_map, Hperm.
Qed.
End TopTables.

Lemma filter_exclusive_length {A : Type} (p q : A -> bool) (l : list A) :
  (forall x, p x && q x = false) ->
  length (filter p l) + length (filter q l) <= length l.
Proof.
  intros Hpq. induction l as [|x t IH]; simpl; [lia|].
  specialize (Hpq x). destruct (p x), (q x); simpl in *; try discriminate; lia.
Qed.

Lemma largest_rows_In {A : Type} (n : nat) (col : A -> option Z) (l : list A)
    (x : A) :
  In x (largest_rows n col l) -> In x l.
Proof.
  unfold largest_rows. intros Hin. apply (head_In n) in Hin.
  revert Hin. apply Permutation_in, isort_perm.
Qed.

Lemma largest_rows_le {A : Type} (n : nat) (col : A -> option Z) (l : list A) :
  length (largest_rows n col l) <= length l.
Proof. rewrite largest_rows_length. apply Nat.le_min_r. Qed.

(** ** The sidebar options *)

Lemma all_present {X : Type} (l : list (option X)) :
  forallb notna l = true -> map Some (dropna l) = l.
Proof.
  induction l as [|[x|] t IH]; simpl; intros Hl;
    [reflexivity | now rewrite IH | discriminate].
Qed.




Lemma py_sorted_perm (l l' : list cell) :
  py_sorted l = Ordered l' \/ py_sorted l = Unordered l' ->
  Permutation l' l.
Proof.
  unfold py_sorted. destruct (forallb notna l) eqn:Hp.
  - intros [E|E]; [|discriminate]. inversion E; subst l'; clear E.
    rewrite <- (all_present l Hp) at 2.
    apply Permutation_map, sort_keys_perm.
  - destruct (forallb is_int (dropna l));
      [|intros [E|E]; discriminate].
    destruct (dropna l); intros [E|E]; inversion E; reflexivity.
Qed.

Lemma dropna_map_Some {X : Type} (l : list X) : dropna (map Some l) = l.
Proof. induction l as [|x t IH]; simpl; congruence. Qed.

Lemma sort_keys_nil : sort_keys [] = [].
Proof. reflexivity. Qed.

Lemma sort_keys_one (k : string) : sort_keys [k] = [k].
Proof. unfold sort_keys. now destruct (forallb is_int [k]). Qed.

Lemma py_sorted_dropna (l l' : list cell) :
  py_sorted l = Ordered l' -> dropna l' = sort_keys (dropna l).
Proof.
  unfold py_sorted. destruct (forallb notna l) eqn:Hp.
  - intros E. inversion E. apply dropna_map_Some.
  - destruct (forallb is_int (dropna l)); [|discriminate].
    destruct (dropna l) eqn:Hd; [|discriminate].
    intros E. inversion E; subst l'. now rewrite Hd.
Qed.

Lemma dropna_unique {X : Type} (eqb : X -> X -> bool) (s : list (option X)) :
  dropna (unique (key_eqb eqb) s) = unique eqb (dropna s).
Proof.
  induction s as [|[x|] t IH]; simpl.
  - reflexivity.
  - f_equal. rewrite <- IH.
    generalize (unique (key_eqb eqb) t). intros u.
    induction u as [|[y|] u' IHu]; simpl; [reflexivity| |exact IHu].
    destruct (eqb x y); simpl; congruence.
  - rewrite <- IH.
    generalize (unique (key_eqb eqb) t). intros u.
    induction u as [|[y|] u' IHu]; simpl; congruence.
Qed.

Lemma dropna_perm {X : Type} (l l' : list (option X)) :
  Permutation l l' -> Permutation (dropna l) (dropna l').
Proof.
  induction 1 as [|c l l' Hp IH|c c' l|l1 l2 l3 H1 IH1 H2 IH2].
  - constructor.
  - destruct c; simpl; [now constructor | exact IH].
  - destruct c, c'; simpl; try reflexivity. apply perm_swap.
  - etransitivity; eassumption.
Qed.

Lemma set_union_In (c : cell) (a b : list cell) :
  In c (set_union a b) <-> In c a \/ In c b.
Proof.
  unfold set_union. rewrite <- in_app_iff.
  generalize (a ++ b). intros l.
  induction l as [|y t IH]; simpl; [tauto|].
  rewrite filter_In, IH. split; [tauto|].
  intros [E|Hin]; [now left|].
  destruct (eq_cells y c) eqn:Hyc; [|right; now split].
  left. destruct y as [u|], c as [v|]; try discriminate.
  apply String.eqb_eq in Hyc. now subst.
Qed.

Lemma set_union_dropna (a b : list cell) :
  dropna (set_union a b) = unique String.eqb (dropna (a ++ b)).
Proof.
  unfold set_union. generalize (a ++ b). intros s.
  induction s as [|[x|] t IH]; simpl.
  - reflexivity.
  - f_equal. rewrite <- IH.
    generalize (unique eq_cells t). intros u.
    induction u as [|[y|] u' IHu]; simpl; [reflexivity| |exact IHu].
    destruct (String.eqb x y); simpl; congruence.
  - rewrite <- IH.
    generalize (unique eq_cells t). intros u.
    induction u as [|[y|] u' IHu]; simpl; congruence.
Qed.

Lemma series_unique_In (c : cell) (s : list cell) :
  In c (series_unique s) <-> In c s.
Proof. apply unique_In, key_eqb_spec, String.eqb_spec. Qed.

Lemma series_unique_NoDup (s : list cell) : NoDup (series_unique s).
Proof. apply unique_NoDup, key_eqb_spec, String.eqb_spec. Qed.

(** A row that passes the contract keeps the filtered table from being
    empty. *)
Lemma filter_stage_inhabited (fs ft : string) (m : list Match) (r : Match) :
  In r m -> filter_contract fs ft r = true -> filter_stage fs ft m <> [].
Proof.
  intros Hin Hr Hnil.
  assert (Hr' : In r (filter_stage fs ft m))
    by (rewrite filter_stage_filter; apply filter_In; now split).
  now rewrite Hnil in Hr'.
Qed.

End MoreFacts.

(* ===================================================================== *)
(** * Further properties of the script                                    *)
(* ===================================================================== *)

Module Extra.
Import Pandas PandasFacts App Contract AppFacts Examples Sidebar MoreFacts.

(** ** Filter stage *)

(** X1. Filtering twice by the same selection changes nothing more; the
    two selections can be applied one after the other in either order;
    and the filter works row by row, so it distributes over the
    concatenation of two tables. *)
Theorem X1_filter_stage_composes :
  forall (fs ft : string) (m m2 : list Match),
    filter_stage fs ft (filter_stage fs ft m) = filter_stage fs ft m
    /\ filter_stage "All" ft (filter_stage fs "All" m) = filter_stage fs ft m
    /\ filter_stage fs "All" (filter_stage "All" ft m) = filter_stage fs ft m
    /\ filter_stage fs ft (m ++ m2)
       = filter_stage fs ft m ++ filter_stage fs ft m2.
Proof.
  intros fs ft m m2. rewrite !filter_stage_filter, !filter_filter.
  split; [|split; [|split]].
  - apply filter_ext. intros r. apply andb_diag.
  - apply filter_ext. intros r. unfold filter_contract.
    change (specified "All") with false.
    destruct (if specified fs then _ else _), (if specified ft then _ else _);
      reflexivity.
  - apply filter_ext. intros r. unfold filter_contract.
    change (specified "All") with false.
    destruct (if specified fs then _ else _), (if specified ft then _ else _);
      reflexivity.
  - apply filter_app.
Qed.

(** ** KPI cards *)

(** X2. With a season selected, the "Seasons" card shows 1 as soon as
    the filtered table has a row, and 0 when it has none. *)
Theorem X2_season_card_under_season_filter :
  forall (fs ft : string) (m : list Match),
    specified fs = true ->
    seasons (kpi (filter_stage fs ft m))
    = Nat.min 1 (length (filter_stage fs ft m)).
Proof.
  intros fs ft m Hfs.
  assert (Hall : Forall (eq (Some fs)) (map season (filter_stage fs ft m))).
  { rewrite filter_stage_filter. apply Forall_forall. intros c Hc.
    apply in_map_iff in Hc. destruct Hc as (r & <- & Hr).
    apply filter_In in Hr. destruct Hr as [_ Hr].
    unfold filter_contract in Hr. rewrite Hfs in Hr.
    apply andb_prop in Hr. destruct Hr as [Hr _].
    destruct (season r) as [s|]; simpl in Hr; [|discriminate].
    apply String.eqb_eq in Hr. now subst. }
  unfold kpi, nunique. cbn [seasons].
  destruct (filter_stage fs ft m) as [|r t]; [reflexivity|].
  rewrite (unique_const String.eqb fs).
  - reflexivity.
  - apply String.eqb_refl.
  - now apply dropna_const.
  - simpl in *. inversion Hall as [|? ? E _]; subst. now rewrite <- E.
Qed.

Lemma X2_season_card_witness :
  specified "2020" = true
  /\ seasons (kpi (filter_stage "2020" "All" three_matches)) = 1.
Proof.
  split; [reflexivity|].
  exact (X2_season_card_under_season_filter "2020" "All" three_matches
           eq_refl).
Defined.

(** X3. No card of distinct values exceeds the number of matches shown,
    and no card of the filtered table exceeds the same card of the full
    table. *)
Theorem X3_kpi_bounds :
  forall (fs ft : string) (m : list Match),
    let K := kpi (filter_stage fs ft m) in
    let K0 := kpi m in
    venues K <= total_matches K
    /\ cities K <= total_matches K
    /\ seasons K <= total_matches K
    /\ total_matches K <= total_matches K0
    /\ venues K <= venues K0
    /\ cities K <= cities K0
    /\ seasons K <= seasons K0.
Proof.
  intros fs ft m K K0. subst K K0. unfold kpi. cbn [total_matches venues cities seasons].
  assert (Hcol : forall col : Match -> cell,
            nunique (map col (filter_stage fs ft m))
            <= length (filter_stage fs ft m)).
  { intros col. etransitivity; [apply nunique_le_length|].
    now rewrite length_map. }
  assert (Hmono : forall col : Match -> cell,
            nunique (map col (filter_stage fs ft m)) <= nunique (map col m)).
  { intros col. apply nunique_incl, incl_map.
    rewrite filter_stage_filter. apply incl_filter. }
  repeat split; try apply Hcol; try apply Hmono.
  rewrite filter_stage_filter. apply filter_length_le.
Qed.

(** X4. When the script gets past the sidebar and the selection matches
    no row, the four cards show 0 and every table of counts derived from
    the filtered matches is empty.  The two tables of biggest wins are
    empty as well when the match table has a row; on a match table
    without rows they are not computed. *)
Theorem X4_empty_selection :
  forall (S : DescSorter) (m : list Match) (d : list Delivery)
         (fs ft : string) (D : Dashboard),
    page m d fs ft = Some D ->
    filter_stage fs ft m = [] ->
    d_kpi D = {| total_matches := 0; venues := 0; cities := 0; seasons := 0 |}
    /\ d_wins D = [] /\ d_toss D = [] /\ d_toss_effect D = []
    /\ d_venue_counts D = [] /\ d_potm D = []
    /\ d_by_runs D = match m with [] => None | _ :: _ => Some [] end
    /\ d_by_wkts D = match m with [] => None | _ :: _ => Some [] end.
Proof.
  intros S m d fs ft D Hpage Hdf.
  assert (HD : D = render m d fs ft).
  { unfold page in Hpage.
    destruct (all_seasons m), (all_teams m); congruence. }
  subst D. unfold render. rewrite Hdf.
  cbn [d_kpi d_wins d_toss d_toss_effect d_venue_counts d_potm d_by_runs
       d_by_wkts].
  unfold wins, toss, toss_effect, venue_counts, potm. simpl map at 1.
  cbn [map].
  repeat split;
    rewrite ?(value_counts_nil String.eqb), ?(value_counts_nil Bool.eqb);
    try reflexivity; now destruct m.
Qed.

Lemma X4_empty_selection_witness :
  @page stable_sorter three_matches three_deliveries "2021" "A"
  = Some (@render stable_sorter three_matches three_deliveries "2021" "A")
  /\ filter_stage "2021" "A" three_matches = []
  /\ d_wins (@render stable_sorter three_matches three_deliveries
               "2021" "A") = [].
Proof.
  split; [reflexivity|]. split; [reflexivity|].
  exact (proj1 (proj2 (X4_empty_selection stable_sorter three_matches
                         three_deliveries "2021" "A" _ eq_refl eq_refl))).
Defined.

(** ** Tables of counts *)

(** X6. The toss summary has at most two rows, labelled "Yes" or "No"
    and never with a missing label, no label twice; it is empty exactly
    when no match is shown. *)
Theorem X6_toss_effect_shape :
  forall (S : DescSorter) (df : list Match),
    length (toss_effect df) <= 2
    /\ Forall (fun kc => fst kc = Some "Yes" \/ fst kc = Some "No")
              (toss_effect df)
    /\ NoDup (map fst (toss_effect df))
    /\ (toss_effect df = [] <-> df = []).
Proof.
  intros S df.
  set (col := map (fun r => Some (toss_match_win r)) df).
  assert (Heff : toss_effect df
                 = map (fun kc => (yes_no (fst kc), snd kc))
                       (value_counts Bool.eqb col)).
  { unfold toss_effect, col. now rewrite map_map. }
  assert (Hkeys : forall k, In k (map fst (value_counts Bool.eqb col)) ->
                            exists b, k = Some b /\ In (Some b) col).
  { intros k Hk. apply in_map_iff in Hk. destruct Hk as ([k' c] & <- & Hin).
    apply (value_counts_In _ Bool.eqb_spec) in Hin.
    destruct Hin as (b & -> & Hin & _). now exists b. }
  split.
  { rewrite Heff, length_map, <- (length_map fst).
    apply (NoDup_incl_length (l' := [Some true; Some false])).
    - apply value_counts_keys_NoDup, Bool.eqb_spec.
    - intros k Hk. destruct (Hkeys k Hk) as ([|] & -> & _); simpl; auto. }
  split.
  { rewrite Heff. apply Forall_forall. intros kc Hkc.
    apply in_map_iff in Hkc. destruct Hkc as ([k c] & <- & Hin). simpl.
    destruct (Hkeys k) as ([|] & -> & _); simpl; auto.
    apply in_map_iff. now exists (k, c). }
  split.
  { rewrite Heff, map_map. cbn [fst].
    rewrite <- (map_map fst yes_no). apply NoDup_map_injective.
    - intros [[|]|] [[|]|]; simpl; congruence.
    - apply value_counts_keys_NoDup, Bool.eqb_spec. }
  split.
  - intros Hnil. destruct df as [|r t]; [reflexivity|]. exfalso.
    assert (Hin : In (Some (toss_match_win r)) col) by (now left).
    assert (Hvc : In (Some (toss_match_win r),
                      count (key_eqb Bool.eqb) (Some (toss_match_win r)) col)
                     (value_counts Bool.eqb col)).
    { apply (value_counts_In _ Bool.eqb_spec). now exists (toss_match_win r). }
    rewrite Heff in Hnil. apply map_eq_nil in Hnil.
    rewrite Hnil in Hvc. exact Hvc.
  - intros ->. unfold toss_effect. cbn [map].
    now rewrite (value_counts_nil Bool.eqb).
Qed.

(** X7. The matches per season have one row per distinct season (the
    "Seasons" card of the unfiltered table) and their counts add up to
    the matches that have a season.  The count listed for a season is
    the "Total Matches" card under that season's filter; for a season
    spelled "All" the filter is off and the card shows every match. *)
Theorem X7_season_matches_and_cards :
  forall (m : list Match),
    length (season_matches m) = seasons (kpi m)
    /\ total (season_matches m)
       = length (filter (fun r => notna (season r)) m)
    /\ Forall (fun sn =>
                 total_matches (kpi (filter_stage (fst sn) "All" m))
                 = if specified (fst sn) then snd sn else length m)
              (season_matches m).
Proof.
  intros m. unfold season_matches.
  split; [apply groupby_size_length|].
  split; [rewrite groupby_size_total; apply dropna_map|].
  apply Forall_forall. intros [s n] Hin. cbn [fst snd].
  apply groupby_size_In in Hin. destruct Hin as [_ ->].
  unfold kpi. cbn [total_matches]. unfold filter_stage, specified.
  destruct (negb (s =? "All")%string); reflexivity.
Qed.

(** ** Delivery tables *)



(** X9. The top wicket takers name no bowler twice, and the totals kept
    together with the totals cut off after the tenth row add up to the
    number of credited deliveries that have a bowler: every such delivery
    is counted once. *)
Theorem X9_top_bowlers_conserve :
  forall (S : DescSorter) (d : list Delivery),
    NoDup (map fst (top_bowlers d))
    /\ exists rest : list (string * Z),
         Permutation (top_bowlers d ++ rest)
                     (groupby_sum bowler is_wicket (filter credited d))
         /\ (sum_Z (map snd (top_bowlers d)) + sum_Z (map snd rest))%Z
            = Z.of_nat
                (length (filter (fun r => credited r && notna (bowler r)) d)).
Proof.
  intros S d. rewrite top_bowlers_credited.
  split.
  { apply top_keys_NoDup. rewrite groupby_sum_keys. apply group_keys_NoDup. }
  destruct (top_rest_sum 10 (groupby_sum bowler is_wicket (filter credited d)))
    as (rest & Hperm & _ & Hsum).
  exists rest. split; [exact Hperm|].
  rewrite Hsum, groupby_sum_total, filter_filter.
  rewrite sum_Z_ones; [now rewrite length_map|].
  apply Forall_forall. intros z Hz.
  apply in_map_iff in Hz. destruct Hz as (r & <- & Hr).
  apply filter_In in Hr. destruct Hr as [_ Hr].
  apply andb_prop in Hr. destruct Hr as [Hr _].
  unfold credited in Hr. apply andb_prop in Hr. now apply Z.eqb_eq.
Qed.

(** X10. Deliveries that leave the tables as they are: a delivery
    without a batter for the run scorers; for the wicket takers a
    delivery without a bowler and a delivery whose wicket flag is 0.  A
    delivery with the flag set and no dismissal kind recorded is
    credited: the missing kind is not "run out". *)
Theorem X10_deliveries_without_effect :
  forall (S : DescSorter) (d1 d2 : list Delivery) (bt bw kind : cell)
         (runs flag : Z),
    top_batsmen (d1 ++ mkDelivery None bw runs flag kind :: d2)
    = top_batsmen (d1 ++ d2)
    /\ top_bowlers (d1 ++ mkDelivery bt None runs flag kind :: d2)
       = top_bowlers (d1 ++ d2)
    /\ top_bowlers (d1 ++ mkDelivery bt bw runs 0 kind :: d2)
       = top_bowlers (d1 ++ d2)
    /\ (forall b : string,
          top_bowlers [mkDelivery bt (Some b) runs 1 None] = [(b, 1%Z)]).
Proof.
  intros S d1 d2 bt bw kind runs flag.
  split.
  { unfold top_batsmen. now rewrite groupby_sum_skip. }
  split.
  { rewrite !top_bowlers_credited, !filter_app. cbn [filter].
    destruct (credited (mkDelivery bt None runs flag kind));
      [|reflexivity].
    now rewrite groupby_sum_skip. }
  split.
  { rewrite !top_bowlers_credited, !filter_app. reflexivity. }
  intros b. rewrite top_bowlers_credited.
  assert (E : groupby_sum bowler is_wicket
                (filter credited [mkDelivery bt (Some b) runs 1 None])
              = [(b, 1%Z)]).
  { unfold groupby_sum, group_keys. cbn [filter credited is_wicket
      dismissal_kind Z.eqb Pos.eqb ne_value eq_value negb andb map bowler
      dropna unique].
    rewrite sort_keys_one. cbn [map group filter bowler eq_value].
    rewrite String.eqb_refl. reflexivity. }
  rewrite E.
  assert (Hs : sort_values_desc snd [(b, 1%Z)] = [(b, 1%Z)]).
  { apply Permutation_length_1_inv, Permutation_sym, sort_values_desc_perm. }
  now rewrite Hs.
Qed.

(** ** Biggest wins *)

(** X11. On a numeric margin column both tables of biggest wins are
    computed.  Every row of them is the projection of a match shown whose
    result type is the table's; no match is in both tables, so the two
    tables together have no more rows than there are matches shown. *)
Theorem X11_biggest_wins_provenance :
  forall (df : list Match),
    exists runs wkts : list (cell * option Z * cell),
      by_runs Numeric df = Some runs
      /\ by_wkts Numeric df = Some wkts
      /\ Forall (fun row => exists r, In r df /\ result r = Some "runs"
                                      /\ row = project r)
                runs
      /\ Forall (fun row => exists r, In r df /\ result r = Some "wickets"
                                      /\ row = project r)
                wkts
      /\ length runs + length wkts <= length df.
Proof.
  intros df.
  assert (Hprov : forall ty,
            Forall (fun row => exists r, In r df /\ result r = Some ty
                                         /\ row = project r)
                   (map project
                      (largest_rows 10 result_margin
                         (filter (fun r => eq_value (result r) ty) df)))).
  { intros ty. apply Forall_forall. intros row Hrow.
    apply in_map_iff in Hrow.
    destruct Hrow as (r & <- & Hr). apply largest_rows_In in Hr.
    apply filter_In in Hr. destruct Hr as [Hin Hty].
    exists r. split; [exact Hin|]. split; [|reflexivity].
    destruct (result r) as [s|]; simpl in Hty; [|discriminate].
    apply String.eqb_eq in Hty. now subst. }
  eexists. eexists.
  split; [reflexivity|]. split; [reflexivity|].
  split; [apply Hprov|]. split; [apply Hprov|].
  rewrite !length_map.
  etransitivity.
  - apply Nat.add_le_mono; apply largest_rows_le.
  - apply filter_exclusive_length. intros r.
    destruct (result r) as [s|]; simpl; [|reflexivity].
    destruct (String.eqb_spec s "runs") as [->|]; reflexivity.
Qed.



(** ** Sidebar options *)


(** X14. When the season options can be built, they are the distinct
    values of the season column, each once; the seasons among them are
    the seasons of the matches-per-season table, and in the same order
    when no number stands beside a missing value; and selecting any
    season among them shows at least one match. *)
Theorem X14_season_options :
  forall (m : list Match) (l : list cell),
    all_seasons m = Ordered l \/ all_seasons m = Unordered l ->
    NoDup l
    /\ (forall c, In c l <-> In c (map season m))
    /\ Permutation (dropna l) (map fst (season_matches m))
    /\ (all_seasons m = Ordered l ->
        dropna l = map fst (season_matches m))
    /\ Forall (fun c => match c with
                        | Some s => filter_stage s "All" m <> []
                        | None => True
                        end) l.
Proof.
  intros m l Hl. unfold all_seasons in *.
  pose proof (py_sorted_perm _ _ Hl) as Hperm.
  assert (Hmem : forall c, In c l <-> In c (map season m)).
  { intros c. rewrite (perm_In _ _ c Hperm). apply series_unique_In. }
  assert (Hkeys : map fst (season_matches m)
                  = sort_keys (dropna (series_unique (map season m)))).
  { unfold season_matches, series_unique.
    now rewrite groupby_size_keys, dropna_unique. }
  split.
  { eapply Permutation_NoDup; [symmetry; exact Hperm|].
    apply series_unique_NoDup. }
  split; [exact Hmem|].
  split.
  { rewrite Hkeys, sort_keys_perm. now apply dropna_perm. }
  split.
  { intros Ho. rewrite Hkeys. now apply py_sorted_dropna. }
  apply Forall_forall. intros [s|] Hc; [|exact I].
  apply Hmem, in_map_iff in Hc. destruct Hc as (r & E & Hr).
  apply (filter_stage_inhabited _ _ _ r Hr).
  unfold filter_contract. change (specified "All") with false.
  rewrite E. simpl. rewrite String.eqb_refl. now destruct (specified s).
Qed.

Lemma X14_season_options_witness :
  (all_seasons three_matches = Ordered [Some "2020"; Some "2021"]
   \/ all_seasons three_matches = Unordered [Some "2020"; Some "2021"])
  /\ NoDup [Some "2020"; Some "2021"].
Proof.
  assert (H : all_seasons three_matches = Ordered [Some "2020"; Some "2021"]
              \/ all_seasons three_matches
                 = Unordered [Some "2020"; Some "2021"])
    by (left; reflexivity).
  split; [exact H|].
  exact (proj1 (X14_season_options three_matches
                  [Some "2020"; Some "2021"] H)).
Defined.

(** X15. When the team options can be built, they are the values of the
    two team columns, each team once; the teams are in ascending order
    (numbers by value, text character by character) when no number
    stands beside a missing value; and selecting any team among them
    shows at least one match. *)
Theorem X15_team_options :
  forall (m : list Match) (l : list cell),
    all_teams m = Ordered l \/ all_teams m = Unordered l ->
    NoDup (dropna l)
    /\ (forall c, In c l <-> In c (map team1 m) \/ In c (map team2 m))
    /\ (all_teams m = Ordered l ->
        if forallb is_int (dropna l)
        then Sorted (fun a b => (int_val a <= int_val b)%Z) (dropna l)
        else Sorted (fun a b => String.leb a b = true) (dropna l))
    /\ Forall (fun c => match c with
                        | Some t => filter_stage "All" t m <> []
                        | None => True
                        end) l.
Proof.
  intros m l Hl. unfold all_teams in *.
  set (u := set_union (series_unique (map team1 m))
                      (series_unique (map team2 m))) in *.
  assert (Hpy : py_sorted u = Ordered l \/ py_sorted u = Unordered l).
  { destruct (column_dtype (map team1 m)), (column_dtype (map team2 m));
      try exact Hl; destruct Hl; discriminate. }
  assert (Hord : all_teams m = Ordered l -> py_sorted u = Ordered l).
  { unfold all_teams. fold u.
    destruct (column_dtype (map team1 m)), (column_dtype (map team2 m));
      try (intros E; exact E); discriminate. }
  clear Hl.
  pose proof (py_sorted_perm _ _ Hpy) as Hperm.
  assert (Hmem : forall c,
            In c l <-> In c (map team1 m) \/ In c (map team2 m)).
  { intros c. rewrite (perm_In _ _ c Hperm). unfold u.
    rewrite set_union_In. now rewrite !series_unique_In. }
  assert (Hdrop : Permutation (dropna l) (dropna u))
    by now apply dropna_perm.
  split.
  { eapply Permutation_NoDup; [symmetry; exact Hdrop|].
    unfold u. rewrite set_union_dropna.
    apply unique_NoDup, String.eqb_spec. }
  split; [exact Hmem|].
  split.
  { intros Ho. apply Hord in Ho.
    rewrite (py_sorted_dropna _ _ Ho). apply sort_keys_ascending. }
  apply Forall_forall. intros [t|] Hc; [|exact I].
  assert (Hr : exists r, In r m /\ (team1 r = Some t \/ team2 r = Some t)).
  { apply Hmem in Hc. rewrite !in_map_iff in Hc.
    destruct Hc as [(r & E & Hr) | (r & E & Hr)]; exists r; tauto. }
  destruct Hr as (r & Hr & E).
  apply (filter_stage_inhabited _ _ _ r Hr).
  unfold filter_contract. change (specified "All") with false.
  cbn [andb]. destruct (specified t); [|reflexivity].
  destruct E as [E|E]; rewrite E; simpl; rewrite String.eqb_refl;
    [reflexivity | apply orb_true_r].
Qed.

Lemma X15_team_options_witness :
  (all_teams three_matches = Ordered [Some "A"; Some "B"; Some "C"]
   \/ all_teams three_matches = Unordered [Some "A"; Some "B"; Some "C"])
  /\ NoDup (dropna [Some "A"; Some "B"; Some "C"]).
Proof.
  assert (H : all_teams three_matches
              = Ordered [Some "A"; Some "B"; Some "C"]
              \/ all_teams three_matches
                 = Unordered [Some "A"; Some "B"; Some "C"])
    by (left; reflexivity).
  split; [exact H|].
  exact (proj1 (X15_team_options three_matches
                  [Some "A"; Some "B"; Some "C"] H)).
Defined.

End Extra.
